(** * LiveBlog Durable Object: a shallow embedding and its properties

    The development follows [durable-objects/LiveBlog.ts]: the in-memory
    [sessions] map, the durable key-value storage with its two keys
    (['atoms'] and ['metadata']), the hibernatable WebSockets held by the
    platform together with their serialized attachments, and the request
    handlers reached from [fetch].

    JavaScript strings are sequences of UTF-16 code units; JSON values are a
    tagged union; handlers run in a state-and-exception monad over the
    [World], where a thrown exception keeps the effects performed so far. *)

From Stdlib Require Import List ZArith NArith Bool Ascii String Lia.
From Stdlib Require Import Permutation DecimalString Sorted.
Import ListNotations.

Set Warnings "-register-all".

(* ===================================================================== *)
(** ** JavaScript strings *)
(* ===================================================================== *)

Module JsStr.

(** A string is its list of UTF-16 code units. *)
Definition JsString := list N.

(** ASCII literals. *)
Definition str (s : string) : JsString :=
  map N_of_ascii (list_ascii_of_string s).

Definition eqb (a b : JsString) : bool :=
  if list_eq_dec N.eq_dec a b then true else false.

(** [String.prototype.endsWith(search)] with the default end position. *)
Definition endsWith (s search : JsString) : bool :=
  let n := List.length s in
  let m := List.length search in
  if (m <=? n)%nat then eqb (skipn (n - m) s) search else false.

(** [String.prototype.substring(0, n)] for [n >= 0]. *)
Definition substring0 (n : nat) (s : JsString) : JsString := firstn n s.

(** ECMAScript WhiteSpace and LineTerminator code units, the ones
    [String.prototype.trim] strips. *)
Definition isWhiteSpace (c : N) : bool :=
  ((c =? 9) || (c =? 10) || (c =? 11) || (c =? 12) || (c =? 13)
   || (c =? 32) || (c =? 160) || (c =? 5760)
   || ((8192 <=? c) && (c <=? 8202))
   || (c =? 8232) || (c =? 8233) || (c =? 8239) || (c =? 8287)
   || (c =? 12288) || (c =? 65279))%N.

Fixpoint trimStart (s : JsString) : JsString :=
  match s with
  | [] => []
  | c :: rest => if isWhiteSpace c then trimStart rest else s
  end.

Definition trimEnd (s : JsString) : JsString := rev (trimStart (rev s)).

(** [String.prototype.trim]. *)
Definition trim (s : JsString) : JsString := trimEnd (trimStart s).

End JsStr.

Import JsStr.

(* ===================================================================== *)
(** ** JSON values and [JSON.stringify] *)
(* ===================================================================== *)

Module Json.

(** Values a handler can hold after [request.json()] and destructuring.
    Numbers are the integer-valued ones (timestamps are epoch milliseconds);
    the handlers inspect a number only through its truthiness.  An object
    is the list of its properties in enumeration order, each key once. *)
Inductive JsValue : Type :=
| JUndefined
| JNull
| JBool (b : bool)
| JNumber (z : Z)
| JString (s : JsString)
| JArray (elems : list JsValue)
| JObject (props : list (JsString * JsValue)).

(** ToBoolean, as used by [!x] and [x || y]. *)
Definition truthy (v : JsValue) : bool :=
  match v with
  | JUndefined | JNull => false
  | JBool b => b
  | JNumber z => negb (z =? 0)%Z
  | JString s => match s with [] => false | _ => true end
  | JArray _ | JObject _ => true
  end.

(** [typeof v === 'string']. *)
Definition isString (v : JsValue) : bool :=
  match v with JString _ => true | _ => false end.

(** [x || y]. *)
Definition js_or (x y : JsValue) : JsValue := if truthy x then x else y.

Fixpoint lookup (k : JsString) (props : list (JsString * JsValue)) : JsValue :=
  match props with
  | [] => JUndefined
  | (k', v) :: rest => if JsStr.eqb k k' then v else lookup k rest
  end.

(** Reading the property [k] of [v], as destructuring [const { k } = v]
    does: [None] is the TypeError raised on [null] and [undefined]; a
    primitive or an array has no own or inherited property of the names the
    handlers read (['content'], ['author']). *)
Definition getProp (k : JsString) (v : JsValue) : option JsValue :=
  match v with
  | JUndefined | JNull => None
  | JObject props => Some (lookup k props)
  | _ => Some JUndefined
  end.

(** *** Serialization *)

Definition hexDigit (d : N) : N :=
  (if d <? 10 then 48 + d else 87 + d)%N.

(** [\uXXXX] with lower-case hexadecimal digits. *)
Definition unicodeEscape (c : N) : JsString :=
  [92; 117; hexDigit ((c / 4096) mod 16); hexDigit ((c / 256) mod 16);
   hexDigit ((c / 16) mod 16); hexDigit (c mod 16)]%N.

Definition isLeadingSurrogate (c : N) : bool := ((55296 <=? c) && (c <=? 56319))%N.
Definition isTrailingSurrogate (c : N) : bool := ((56320 <=? c) && (c <=? 57343))%N.

(** One code unit that is not part of a surrogate pair. *)
Definition escapeUnit (c : N) : JsString :=
  (if c =? 8 then str "\b"
   else if c =? 9 then str "\t"
   else if c =? 10 then str "\n"
   else if c =? 12 then str "\f"
   else if c =? 13 then str "\r"
   else if c =? 34 then [92; 34]
   else if c =? 92 then [92; 92]
   else if (c <? 32) || isLeadingSurrogate c || isTrailingSurrogate c
        then unicodeEscape c
   else [c])%N.

Fixpoint quoteBody (s : JsString) : JsString :=
  match s with
  | [] => []
  | c :: rest =>
      if isLeadingSurrogate c then
        match rest with
        | d :: rest' =>
            if isTrailingSurrogate d then c :: d :: quoteBody rest'
            else unicodeEscape c ++ quoteBody rest
        | [] => unicodeEscape c
        end
      else escapeUnit c ++ quoteBody rest
  end.

(** QuoteJSONString. *)
Definition quote (s : JsString) : JsString := 34%N :: quoteBody s ++ [34%N].

(** Number::toString for an integer: plain decimal digits (the form
    JavaScript uses below 10^21 in magnitude). *)
Definition numberToString (z : Z) : JsString :=
  str (NilZero.string_of_int (Z.to_int z)).

Fixpoint joinComma (parts : list JsString) : JsString :=
  match parts with
  | [] => []
  | [p] => p
  | p :: rest => p ++ 44%N :: joinComma rest
  end.

(** [JSON.stringify(v)]; [None] is the [undefined] it returns for
    [undefined].  An [undefined] array element prints as [null], an
    [undefined] property is left out. *)
Fixpoint stringify (v : JsValue) : option JsString :=
  match v with
  | JUndefined => None
  | JNull => Some (str "null")
  | JBool true => Some (str "true")
  | JBool false => Some (str "false")
  | JNumber z => Some (numberToString z)
  | JString s => Some (quote s)
  | JArray elems =>
      let parts :=
        (fix go (l : list JsValue) : list JsString :=
           match l with
           | [] => []
           | x :: xs =>
               match stringify x with
               | Some s => s
               | None => str "null"
               end :: go xs
           end) elems in
      Some (91%N :: joinComma parts ++ [93%N])
  | JObject props =>
      let parts :=
        (fix go (l : list (JsString * JsValue)) : list JsString :=
           match l with
           | [] => []
           | (k, x) :: xs =>
               match stringify x with
               | Some s => (quote k ++ 58%N :: s) :: go xs
               | None => go xs
               end
           end) props in
      Some (123%N :: joinComma parts ++ [125%N])
  end.

End Json.

Import Json.

(* ===================================================================== *)
(** ** The data model of [LiveBlog.ts] *)
(* ===================================================================== *)

(** A WebSocket object is known by its identity. *)
Definition WebSocket := nat.

(** [interface Atom].  [author] holds whatever [author || 'Anonymous']
    evaluated to: the request body is cast, not checked. *)
Record Atom : Type := mkAtom {
  atom_id : JsString;
  atom_content : JsString;
  atom_timestamp : Z;
  atom_author : JsValue
}.

(** [interface LiveBlogMetadata]. *)
Record LiveBlogMetadata : Type := mkMetadata {
  meta_id : JsString;
  meta_name : JsString;
  meta_createdAt : Z
}.

(** The value of the [sessions] map and of a serialized attachment:
    [{ id: sessionId }]. *)
Record Session : Type := mkSession { session_id : JsString }.

(** [this.ctx.storage]: the two keys the class uses, each absent or holding
    a value of its type. *)
Record Storage : Type := mkStorage {
  st_atoms : option (list Atom);
  st_metadata : option LiveBlogMetadata
}.

Record Request : Type := mkRequest {
  req_pathname : JsString;               (* new URL(request.url).pathname *)
  req_method : JsString;                 (* request.method *)
  req_upgrade : option JsString;         (* request.headers.get('Upgrade') *)
  req_json : option JsValue              (* request.json(); None when it rejects *)
}.

Record Response : Type := mkResponse {
  res_status : Z;
  res_body : option JsString;
  res_headers : list (JsString * JsString);
  res_webSocket : option WebSocket
}.

(** What a handler does to the outside, in order. *)
Inductive Effect : Type :=
| EPutAtoms (atoms : list Atom)              (* storage.put('atoms', atoms) resolved *)
| EPutMetadata (m : LiveBlogMetadata)        (* storage.put('metadata', m) resolved *)
| EAccept (ws : WebSocket)                   (* ctx.acceptWebSocket(ws) *)
| EAttach (ws : WebSocket) (s : Session)     (* ws.serializeAttachment(s) *)
| ESend (ws : WebSocket) (message : option JsString) (delivered : bool)
                                             (* ws.send(message); false when it threw *)
| EClose (ws : WebSocket).                   (* ws.close(code, reason) *)

(** What the platform decides during one request: the UUID and the clock
    it hands out, and which storage operations and sends fail. *)
Record Env : Type := mkEnv {
  randomUUID : JsString;
  now : Z;
  getFails : bool;
  putFails : bool;
  sendFails : WebSocket -> bool
}.

(** The actor incarnation ([sessions]) and what outlives it: the storage,
    the accepted WebSockets with their attachments ([ctx.getWebSockets()]),
    the actor id, and the effects performed so far. *)
Record World : Type := mkWorld {
  sessions : list (WebSocket * Session);
  storage : Storage;
  webSockets : list (WebSocket * option Session);
  nextSocket : nat;
  ctxId : JsString;
  trace : list Effect
}.

Definition freshWorld (id : JsString) : World :=
  mkWorld [] (mkStorage None None) [] 0 id [].

(* ===================================================================== *)
(** ** [Map] with insertion order *)
(* ===================================================================== *)

Module JsMap.
Section WithValue.
Variable V : Type.

Definition t := list (WebSocket * V).

(** [Map.prototype.set]: an existing key keeps its place. *)
Fixpoint set (k : WebSocket) (v : V) (m : t) : t :=
  match m with
  | [] => [(k, v)]
  | (k', v') :: rest =>
      if Nat.eqb k k' then (k, v) :: rest else (k', v') :: set k v rest
  end.

Definition delete (k : WebSocket) (m : t) : t :=
  filter (fun kv => negb (Nat.eqb k (fst kv))) m.

Fixpoint get (k : WebSocket) (m : t) : option V :=
  match m with
  | [] => None
  | (k', v) :: rest => if Nat.eqb k k' then Some v else get k rest
  end.
End WithValue.
Arguments set {V} k v m.
Arguments delete {V} k m.
Arguments get {V} k m.
End JsMap.

(* ===================================================================== *)
(** ** Handlers: state and exceptions *)
(* ===================================================================== *)

Inductive Outcome (A : Type) : Type :=
| Returned (a : A)
| Thrown.
Arguments Returned {A} a.
Arguments Thrown {A}.

(** A computation changes the world and returns or throws; the world it
    leaves holds every effect performed before the throw. *)
Definition M (A : Type) : Type := World -> Outcome A * World.

Definition ret {A} (a : A) : M A := fun w => (Returned a, w).
Definition throw {A} : M A := fun w => (Thrown, w).
Definition bind {A B} (m : M A) (k : A -> M B) : M B :=
  fun w => match m w with
           | (Returned a, w') => k a w'
           | (Thrown, w') => (Thrown, w')
           end.
Definition tryCatch {A} (m : M A) (handler : M A) : M A :=
  fun w => match m w with
           | (Returned a, w') => (Returned a, w')
           | (Thrown, w') => handler w'
           end.

Declare Scope js_scope.
Delimit Scope js_scope with js.
Notation "x <- m ;; k" := (bind m (fun x => k))
  (at level 100, m at next level, right associativity) : js_scope.
Notation "m ;; k" := (bind m (fun _ => k))
  (at level 100, right associativity) : js_scope.
Local Open Scope js_scope.

Definition getWorld : M World := fun w => (Returned w, w).
Definition emit (e : Effect) : M unit :=
  fun w => (Returned tt,
            mkWorld (sessions w) (storage w) (webSockets w) (nextSocket w)
                    (ctxId w) (trace w ++ [e])).
Definition setSessions (s : list (WebSocket * Session)) : M unit :=
  fun w => (Returned tt,
            mkWorld s (storage w) (webSockets w) (nextSocket w) (ctxId w) (trace w)).
Definition setStorage (s : Storage) : M unit :=
  fun w => (Returned tt,
            mkWorld (sessions w) s (webSockets w) (nextSocket w) (ctxId w) (trace w)).
Definition setWebSockets (l : list (WebSocket * option Session)) : M unit :=
  fun w => (Returned tt,
            mkWorld (sessions w) (storage w) l (nextSocket w) (ctxId w) (trace w)).
Definition setNextSocket (n : nat) : M unit :=
  fun w => (Returned tt,
            mkWorld (sessions w) (storage w) (webSockets w) n (ctxId w) (trace w)).

(* ===================================================================== *)
(** ** The platform primitives *)
(* ===================================================================== *)

(** [this.ctx.storage.get(key)] and [put(key, value)]: a rejected promise
    is a throw at the [await]; a rejected [put] leaves the storage as it
    was. *)
Definition storageGetAtoms (e : Env) : M (option (list Atom)) :=
  if getFails e then throw
  else w <- getWorld ;; ret (st_atoms (storage w)).

Definition storagePutAtoms (e : Env) (atoms : list Atom) : M unit :=
  if putFails e then throw
  else w <- getWorld ;;
       setStorage (mkStorage (Some atoms) (st_metadata (storage w))) ;;
       emit (EPutAtoms atoms).

Definition storageGetMetadata (e : Env) : M (option LiveBlogMetadata) :=
  if getFails e then throw
  else w <- getWorld ;; ret (st_metadata (storage w)).

Definition storagePutMetadata (e : Env) (m : LiveBlogMetadata) : M unit :=
  if putFails e then throw
  else w <- getWorld ;;
       setStorage (mkStorage (st_atoms (storage w)) (Some m)) ;;
       emit (EPutMetadata m).

(** [new WebSocketPair()]: two objects nobody holds yet,
    [(client, server)]. *)
Definition newWebSocketPair : M (WebSocket * WebSocket) :=
  w <- getWorld ;;
  setNextSocket (nextSocket w + 2) ;;
  ret (nextSocket w, nextSocket w + 1).

(** [this.ctx.acceptWebSocket(ws)]: the platform holds [ws] from now on,
    with no attachment yet. *)
Definition acceptWebSocket (ws : WebSocket) : M unit :=
  w <- getWorld ;;
  setWebSockets (webSockets w ++ [(ws, None)]) ;;
  emit (EAccept ws).

Definition attach (ws : WebSocket) (s : Session)
    (l : list (WebSocket * option Session)) : list (WebSocket * option Session) :=
  map (fun ka => if Nat.eqb (fst ka) ws then (fst ka, Some s) else ka) l.

(** [ws.serializeAttachment(s)]. *)
Definition serializeAttachment (ws : WebSocket) (s : Session) : M unit :=
  w <- getWorld ;;
  setWebSockets (attach ws s (webSockets w)) ;;
  emit (EAttach ws s).

(** [ws.send(message)]; [false] when it threw. *)
Definition send (e : Env) (ws : WebSocket) (message : option JsString) : M bool :=
  if sendFails e ws then emit (ESend ws message false) ;; ret false
  else emit (ESend ws message true) ;; ret true.

(* ===================================================================== *)
(** ** [class LiveBlog] *)
(* ===================================================================== *)

Definition jsonHeaders : list (JsString * JsString) :=
  [(str "Content-Type", str "application/json")].

Definition atomValue (a : Atom) : JsValue :=
  JObject [(str "id", JString (atom_id a));
           (str "content", JString (atom_content a));
           (str "timestamp", JNumber (atom_timestamp a));
           (str "author", atom_author a)].

Definition metadataValue (m : LiveBlogMetadata) : JsValue :=
  JObject [(str "id", JString (meta_id m));
           (str "name", JString (meta_name m));
           (str "createdAt", JNumber (meta_createdAt m))].

(** The loop of the constructor over [this.ctx.getWebSockets()]. *)
Definition restoreSessions (sockets : list (WebSocket * option Session))
    : list (WebSocket * Session) :=
  fold_left
    (fun acc wa =>
       match snd wa with
       | Some attachment => JsMap.set (fst wa) attachment acc
       | None => acc
       end)
    sockets [].

(** [constructor]: a new incarnation over what the platform holds.
    [setWebSocketAutoResponse] changes nothing the handlers see. *)
Definition construct (w : World) : World :=
  mkWorld (restoreSessions (webSockets w)) (storage w) (webSockets w)
          (nextSocket w) (ctxId w) (trace w).

Definition getAllAtoms (e : Env) : M (list Atom) :=
  atoms <- storageGetAtoms e ;;
  ret (match atoms with Some l => l | None => [] end).

Definition storeAtom (e : Env) (atom : Atom) : M unit :=
  atoms <- getAllAtoms e ;;
  storagePutAtoms e (atoms ++ [atom]).

Definition newAtomMessage (atom : Atom) : option JsString :=
  stringify (JObject [(str "type", JString (str "new_atom"));
                      (str "atom", atomValue atom)]).

(** The body of [this.sessions.forEach]: the callback deletes at most the
    entry it is visiting, so every entry present at the start is
    visited. *)
Fixpoint forEachSend (e : Env) (message : option JsString)
    (entries : list (WebSocket * Session)) : M unit :=
  match entries with
  | [] => ret tt
  | (ws, _) :: rest =>
      delivered <- send e ws message ;;
      (if delivered then ret tt
       else w <- getWorld ;; setSessions (JsMap.delete ws (sessions w))) ;;
      forEachSend e message rest
  end.

Definition broadcastAtom (e : Env) (atom : Atom) : M unit :=
  let message := newAtomMessage atom in
  w <- getWorld ;;
  forEachSend e message (sessions w).

Definition handleWebSocketUpgrade (e : Env) (request : Request) : M Response :=
  let upgradeHeader := req_upgrade request in
  if match upgradeHeader with
     | None => true
     | Some h => JsStr.eqb h [] || negb (JsStr.eqb h (str "websocket"))
     end
  then ret (mkResponse 426 (Some (str "Expected Upgrade: websocket")) [] None)
  else if negb (JsStr.eqb (req_method request) (str "GET"))
  then ret (mkResponse 400 (Some (str "Expected GET method")) [] None)
  else
    pair <- newWebSocketPair ;;
    let client := fst pair in
    let server := snd pair in
    acceptWebSocket server ;;
    let sessionId := randomUUID e in
    serializeAttachment server (mkSession sessionId) ;;
    w <- getWorld ;;
    setSessions (JsMap.set server (mkSession sessionId) (sessions w)) ;;
    ret (mkResponse 101 None [] (Some client)).

Definition handleGetAtoms (e : Env) : M Response :=
  atoms <- getAllAtoms e ;;
  ret (mkResponse 200
         (stringify (JObject [(str "atoms", JArray (map atomValue atoms))]))
         jsonHeaders None).

(** [content.trim()]: a TypeError on a value that is not a string. *)
Definition callTrim (content : JsValue) : M JsString :=
  match content with
  | JString s => ret (trim s)
  | _ => throw
  end.

Definition createdResponse (atom : Atom) : Response :=
  mkResponse 200
    (stringify (JObject [(str "success", JBool true); (str "atom", atomValue atom)]))
    jsonHeaders None.

Definition contentRequired : Response :=
  mkResponse 400
    (stringify (JObject [(str "error", JString (str "Content is required"))]))
    jsonHeaders None.

Definition failedToCreate : Response :=
  mkResponse 500
    (stringify (JObject [(str "error", JString (str "Failed to create atom"))]))
    jsonHeaders None.

Definition handleCreateAtom (e : Env) (request : Request) : M Response :=
  tryCatch
    (body <- (match req_json request with Some b => ret b | None => throw end) ;;
     content <- (match getProp (str "content") body with
                 | Some v => ret v | None => throw end) ;;
     author <- (match getProp (str "author") body with
                | Some v => ret v | None => throw end) ;;
     if negb (truthy content) || negb (isString content)
     then ret contentRequired
     else
       trimmed <- callTrim content ;;
       let atom := mkAtom (randomUUID e) trimmed (now e)
                          (js_or author (JString (str "Anonymous"))) in
       storeAtom e atom ;;
       broadcastAtom e atom ;;
       ret (createdResponse atom))
    (ret failedToCreate).

Definition handleGetMetadata (e : Env) : M Response :=
  stored <- storageGetMetadata e ;;
  metadata <- (match stored with
               | Some m => ret m
               | None =>
                   w <- getWorld ;;
                   let m := mkMetadata (ctxId w)
                              (str "Live Blog " ++ substring0 8 (ctxId w))
                              (now e) in
                   storagePutMetadata e m ;;
                   ret m
               end) ;;
  ret (mkResponse 200 (stringify (metadataValue metadata)) jsonHeaders None).

Definition notFound : Response :=
  mkResponse 404 (Some (str "Not Found")) [] None.

Definition fetch (e : Env) (request : Request) : M Response :=
  let path := req_pathname request in
  if endsWith path (str "/websocket") then handleWebSocketUpgrade e request
  else if endsWith path (str "/atoms") && JsStr.eqb (req_method request) (str "GET")
  then handleGetAtoms e
  else if endsWith path (str "/atoms") && JsStr.eqb (req_method request) (str "POST")
  then handleCreateAtom e request
  else if endsWith path (str "/metadata") && JsStr.eqb (req_method request) (str "GET")
  then handleGetMetadata e
  else ret notFound.

(** [webSocketMessage]: only logs. *)
Definition webSocketMessage (ws : WebSocket) : M unit := ret tt.

Definition webSocketClose (ws : WebSocket) : M unit :=
  w <- getWorld ;;
  (match JsMap.get ws (sessions w) with
   | Some _ => setSessions (JsMap.delete ws (sessions w))
   | None => ret tt
   end) ;;
  emit (EClose ws).

Definition webSocketError (ws : WebSocket) : M unit :=
  w <- getWorld ;;
  setSessions (JsMap.delete ws (sessions w)).

(* ===================================================================== *)
(** ** Runs of the actor *)
(* ===================================================================== *)

(** What can happen to a room: a request, a signal from a connection, or
    the platform evicting the idle actor, dropping the connections that have
    gone meanwhile and constructing a new incarnation on the next event. *)
Inductive Event : Type :=
| Fetch (e : Env) (request : Request)
| SocketMessage (ws : WebSocket)
| SocketClose (ws : WebSocket)
| SocketError (ws : WebSocket)
| Evict (stillOpen : WebSocket -> bool).

(** Passivation: the incarnation's memory goes, the platform keeps the
    open connections with their attachments. *)
Definition passivate (stillOpen : WebSocket -> bool) (w : World) : World :=
  mkWorld [] (storage w)
          (filter (fun wa => stillOpen (fst wa)) (webSockets w))
          (nextSocket w) (ctxId w) (trace w).

Definition step (w : World) (ev : Event) : World :=
  match ev with
  | Fetch e request => snd (fetch e request w)
  | SocketMessage ws => snd (webSocketMessage ws w)
  | SocketClose ws => snd (webSocketClose ws w)
  | SocketError ws => snd (webSocketError ws w)
  | Evict stillOpen => construct (passivate stillOpen w)
  end.

Definition run (evs : list Event) (w : World) : World := fold_left step evs w.

Definition reachable (w : World) : Prop :=
  exists id evs, w = run evs (freshWorld id).

(** The [POST /atoms] request the router forwards for
    [appendEvent(content, author)]. *)
Definition appendRequest (content author : JsValue) : Request :=
  mkRequest (str "/api/liveblog/room/atoms") (str "POST") None
            (Some (JObject [(str "content", content); (str "author", author)])).

Definition listRequest : Request :=
  mkRequest (str "/api/liveblog/room/atoms") (str "GET") None None.

Definition metadataRequest : Request :=
  mkRequest (str "/api/liveblog/room/metadata") (str "GET") None None.

Definition upgradeRequest : Request :=
  mkRequest (str "/api/liveblog/room/websocket") (str "GET")
            (Some (str "websocket")) None.

(** An environment in which nothing fails. *)
Definition calm (uuid : JsString) (t : Z) : Env :=
  mkEnv uuid t false false (fun _ => false).

(* ===================================================================== *)
(** ** Vocabulary of the properties *)
(* ===================================================================== *)


Definition statusOf (r : Outcome Response * World) : option Z :=
  match fst r with
  | Returned resp => Some (res_status resp)
  | Thrown => None
  end.


(** [!content || typeof content !== 'string'] does not hold. *)
Definition validContent (content : JsValue) : bool :=
  truthy content && isString content.

(** [getAllAtoms] on the storage as it is. *)
Definition storedAtoms (w : World) : list Atom :=
  match st_atoms (storage w) with
  | Some l => l
  | None => []
  end.

(** The atom [handleCreateAtom] builds from a string [content]. *)
Definition newAtom (e : Env) (content : JsString) (author : JsValue) : Atom :=
  mkAtom (randomUUID e) (trim content) (now e)
         (js_or author (JString (str "Anonymous"))).

(** The [Upgrade] header is present and says [websocket]. *)
Definition upgradeHeaderOk (r : Request) : bool :=
  match req_upgrade r with
  | Some h => JsStr.eqb h (str "websocket")
  | None => false
  end.

(** What an accepted upgrade leaves behind. *)
Definition upgraded (e : Env) (w : World) : World :=
  let server := nextSocket w + 1 in
  let session := mkSession (randomUUID e) in
  mkWorld (JsMap.set server session (sessions w)) (storage w)
          (attach server session (webSockets w ++ [(server, None)]))
          (nextSocket w + 2) (ctxId w)
          (trace w ++ [EAccept server] ++ [EAttach server session]).

(** One send attempt per entry, in iteration order. *)
Definition broadcastTrace (e : Env) (message : option JsString)
    (entries : list (WebSocket * Session)) : list Effect :=
  map (fun kv => ESend (fst kv) message (negb (sendFails e (fst kv)))) entries.

(** The sessions whose send does not throw. *)
Definition surviving (e : Env) (m : list (WebSocket * Session))
    : list (WebSocket * Session) :=
  filter (fun kv => negb (sendFails e (fst kv))) m.

(** Does some entry with key [k] fail? *)
Definition failsAmong (e : Env) (entries : list (WebSocket * Session))
    (k : WebSocket) : bool :=
  existsb (fun en => Nat.eqb (fst en) k && sendFails e (fst en)) entries.

(** The world after a valid, stored and broadcast append. *)
Definition appended (e : Env) (atom : Atom) (w : World) : World :=
  mkWorld (surviving e (sessions w))
          (mkStorage (Some (storedAtoms w ++ [atom])) (st_metadata (storage w)))
          (webSockets w) (nextSocket w) (ctxId w)
          (trace w ++ EPutAtoms (storedAtoms w ++ [atom])
                   :: broadcastTrace e (newAtomMessage atom) (sessions w)).





(** The answer of [handleGetAtoms] for a log. *)
Definition listResponse (atoms : list Atom) : Response :=
  mkResponse 200
    (stringify (JObject [(str "atoms", JArray (map atomValue atoms))]))
    jsonHeaders None.

(** The answer of [handleGetMetadata] for a metadata value. *)
Definition metadataResponse (m : LiveBlogMetadata) : Response :=
  mkResponse 200 (stringify (metadataValue m)) jsonHeaders None.

(** The metadata synthesized on the first request. *)
Definition initialMetadata (e : Env) (w : World) : LiveBlogMetadata :=
  mkMetadata (ctxId w) (str "Live Blog " ++ substring0 8 (ctxId w)) (now e).

(** The world after the first metadata request stored its value. *)
Definition withMetadata (e : Env) (w : World) : World :=
  mkWorld (sessions w)
          (mkStorage (st_atoms (storage w)) (Some (initialMetadata e w)))
          (webSockets w) (nextSocket w) (ctxId w)
          (trace w ++ [EPutMetadata (initialMetadata e w)]).

(** The [(ws, session)] pairs persisted by [serializeAttachment], read
    off a trace. *)
Definition attachments (tr : list Effect) : list (WebSocket * Session) :=
  flat_map (fun ef => match ef with
                      | EAttach ws s => [(ws, s)]
                      | _ => []
                      end) tr.

(** The entries of a platform listing that carry an attachment. *)
Definition attached (l : list (WebSocket * option Session))
    : list (WebSocket * Session) :=
  flat_map (fun wa => match snd wa with
                      | Some s => [(fst wa, s)]
                      | None => []
                      end) l.

(** What holds of every world the actor can reach: the platform lists a
    connection once; each listed connection carries the attachment persisted
    for it; handles are allocated in increasing order and attached once; the
    registry holds only listed connections, with their attachment. *)
Record Inv (w : World) : Prop := mkInv {
  inv_nodup : NoDup (map fst (webSockets w));
  inv_held : forall ws a, In (ws, a) (webSockets w) ->
             exists s, a = Some s /\ In (ws, s) (attachments (trace w));
  inv_bound : forall ws s, In (ws, s) (attachments (trace w)) -> ws < nextSocket w;
  inv_once : forall ws s s', In (ws, s) (attachments (trace w)) ->
             In (ws, s') (attachments (trace w)) -> s = s';
  inv_registered : forall ws s, In (ws, s) (sessions w) ->
                   In (ws, Some s) (webSockets w)
}.
Arguments inv_nodup {w}.
Arguments inv_held {w}.
Arguments inv_bound {w}.
Arguments inv_once {w}.
Arguments inv_registered {w}.

(** A step that touches neither the platform's listing nor the
    attachments and adds nothing to the registry. *)
Definition quiet (w w' : World) : Prop :=
  webSockets w' = webSockets w
  /\ nextSocket w' = nextSocket w
  /\ attachments (trace w') = attachments (trace w)
  /\ incl (sessions w') (sessions w).

(* ===================================================================== *)
(** ** Delivery to the instance *)
(* ===================================================================== *)

(** [stub.fetch(request)], the only way a request reaches the instance:
    the runtime hands a request that carries [Upgrade: websocket] to the
    instance as the GET handshake of a WebSocket; a request without that
    header arrives as it was sent. *)
Definition delivered (r : Request) : Request :=
  if upgradeHeaderOk r
  then mkRequest (req_pathname r) (str "GET") (req_upgrade r) (req_json r)
  else r.

Definition stubFetch (e : Env) (request : Request) : M Response :=
  fetch e (delivered request).

(** A request as the instance can receive it: with [Upgrade: websocket]
    it is a GET. *)
Definition deliverable (r : Request) : Prop :=
  upgradeHeaderOk r = true -> req_method r = str "GET".

(* ===================================================================== *)
(** ** More of the string and array library *)
(* ===================================================================== *)

Module JsLib.

(** [String.prototype.startsWith(prefix)]. *)
Definition startsWith (s prefix : JsString) : bool :=
  JsStr.eqb (firstn (List.length prefix) s) prefix.

(** [String.prototype.split(sep)] for a separator of one code unit: the
    pieces between the separators, the empty ones included. *)
Fixpoint split (sep : N) (s : JsString) : list JsString :=
  match s with
  | [] => [[]]
  | c :: rest =>
      if (c =? sep)%N then [] :: split sep rest
      else match split sep rest with
           | piece :: pieces => (c :: piece) :: pieces
           | [] => [[c]]
           end
  end.

(** [Boolean(s)] for a string, the predicate of [filter(Boolean)]. *)
Definition nonEmpty (s : JsString) : bool :=
  match s with
  | [] => false
  | _ => true
  end.

(** [v === literal] for a string literal. *)
Definition isLiteral (v : JsValue) (literal : JsString) : bool :=
  match v with
  | JString s => JsStr.eqb s literal
  | _ => false
  end.

(** [Array.prototype.slice(0, n)]. *)
Definition slice0 {A} (n : nat) (l : list A) : list A := firstn n l.

End JsLib.

(* ===================================================================== *)
(** ** The Worker entry point ([worker/index.ts]) *)
(* ===================================================================== *)

Module Worker.

(** [env.LIVEBLOG]: the instance [idFromName(name)] designates, for every
    name; different names designate different instances. *)
Definition Namespace := JsString -> World.

(** The namespace after the instance named [name] handled a request. *)
Definition update (ns : Namespace) (name : JsString) (w : World) : Namespace :=
  fun n => if JsStr.eqb n name then w else ns n.

Definition invalidUrl : Response :=
  mkResponse 400 (Some (str "Invalid LiveBlog URL")) [] None.

Definition blogIdRequired : Response :=
  mkResponse 400 (Some (str "Blog ID is required")) [] None.

Definition internalServerError : Response :=
  mkResponse 500 (Some (str "Internal Server Error")) [] None.

(** [url.pathname.split('/').filter(Boolean)]. *)
Definition pathParts (pathname : JsString) : list JsString :=
  filter JsLib.nonEmpty (JsLib.split 47 pathname).

(** [handleLiveBlogRequest]: [pathParts[2]] is [undefined] past the end,
    which [!blogId] treats as the empty string. *)
Definition handleLiveBlogRequest (e : Env) (request : Request) (ns : Namespace)
    : Outcome Response * Namespace :=
  let parts := pathParts (req_pathname request) in
  if (List.length parts <? 3)%nat then (Returned invalidUrl, ns)
  else
    let blogId := nth 2 parts [] in
    if negb (JsLib.nonEmpty blogId) then (Returned blogIdRequired, ns)
    else
      let r := stubFetch e request (ns blogId) in
      (fst r, update ns blogId (snd r)).

(** [handler.fetch].  The OpenNext handler is outside the repository:
    [openNext request] is [None] when loading or calling it throws inside
    the [try], and otherwise the outcome of the promise it returns, which
    the [try] does not await. *)
Definition fetch (openNext : Request -> option (Outcome Response))
    (e : Env) (request : Request) (ns : Namespace)
    : Outcome Response * Namespace :=
  if JsLib.startsWith (req_pathname request) (str "/api/liveblog/")
  then handleLiveBlogRequest e request ns
  else match openNext request with
       | Some outcome => (outcome, ns)
       | None => (Returned internalServerError, ns)
       end.

End Worker.

(* ===================================================================== *)
(** ** The Next.js API routes ([app/api/liveblog/[blogId]/...]) *)
(* ===================================================================== *)

(** [NextResponse.json(body, { status })]. *)
Definition nextJson (status : Z) (body : JsValue) : Response :=
  mkResponse status (stringify body) jsonHeaders None.

Definition devModeMessage : JsString :=
  str "Running in development mode. Use `npm run preview` for full functionality.".

Definition mockMessage : JsString :=
  str "Mock atom created in dev mode. Use `npm run preview` for full functionality.".

Definition workersRuntimeMessage : JsString :=
  str "WebSocket connections require Cloudflare Workers runtime. Use `npm run preview` or deploy to Cloudflare.".

(** The [try] around [idFromName], [get] and [stub.fetch]: [callThrows]
    says that one of the calls throws; the promise [stub.fetch] returns is
    returned without [await], so what the instance does is not caught. *)
Definition forward (e : Env) (callThrows : bool) (onThrow : Response)
    (blogId : JsString) (request : Request) (ns : Worker.Namespace)
    : Outcome Response * Worker.Namespace :=
  if callThrows then (Returned onThrow, ns)
  else
    let r := stubFetch e request (ns blogId) in
    (fst r, Worker.update ns blogId (snd r)).

Module AtomsRoute.

(** [GET]; [binding] is [env?.LIVEBLOG]. *)
Definition GET (e : Env) (callThrows : bool) (blogId : JsString)
    (request : Request) (binding : option Worker.Namespace)
    : Outcome Response * option Worker.Namespace :=
  match binding with
  | Some ns =>
      let r := forward e callThrows
                 (nextJson 500 (JObject [(str "error", JString (str "Failed to fetch atoms"))]))
                 blogId request ns in
      (fst r, Some (snd r))
  | None =>
      (Returned (nextJson 200
                   (JObject [(str "atoms", JArray []);
                             (str "_devMode", JBool true);
                             (str "_message", JString devModeMessage)])),
       None)
  end.

(** The mock atom of the development fallback, keys in the order of the
    object literal. *)
Definition mockAtom (e : Env) (content author : JsValue) : JsValue :=
  JObject [(str "id", JString (randomUUID e));
           (str "content", content);
           (str "author", js_or author (JString (str "Anonymous")));
           (str "timestamp", JNumber (now e))].

Definition failedToCreateJson : Response :=
  nextJson 500 (JObject [(str "error", JString (str "Failed to create atom"))]).

(** The development fallback of [POST]. *)
Definition devPOST (e : Env) (request : Request) : Response :=
  match req_json request with
  | None => failedToCreateJson
  | Some body =>
      match getProp (str "content") body, getProp (str "author") body with
      | Some content, Some author =>
          nextJson 200
            (JObject [(str "success", JBool true);
                      (str "atom", mockAtom e content author);
                      (str "_devMode", JBool true);
                      (str "_message", JString mockMessage)])
      | _, _ => failedToCreateJson
      end
  end.

Definition POST (e : Env) (callThrows : bool) (blogId : JsString)
    (request : Request) (binding : option Worker.Namespace)
    : Outcome Response * option Worker.Namespace :=
  match binding with
  | Some ns =>
      let r := forward e callThrows failedToCreateJson blogId request ns in
      (fst r, Some (snd r))
  | None => (Returned (devPOST e request), None)
  end.

End AtomsRoute.

Module WebsocketRoute.

(** [upgradeHeader === 'websocket']. *)
Definition isUpgrade (request : Request) : bool :=
  match req_upgrade request with
  | Some h => JsStr.eqb h (str "websocket")
  | None => false
  end.

Definition GET (e : Env) (callThrows : bool) (blogId : JsString)
    (request : Request) (binding : option Worker.Namespace)
    : Outcome Response * option Worker.Namespace :=
  match binding with
  | Some ns =>
      if isUpgrade request then
        let r := forward e callThrows
                   (mkResponse 500 (Some (str "Failed to connect to WebSocket")) [] None)
                   blogId request ns in
        (fst r, Some (snd r))
      else
        (Returned (nextJson 200
                     (JObject [(str "error",
                                JString (str "This endpoint is for WebSocket connections only"));
                               (str "_devMode", JBool false);
                               (str "_message", JString workersRuntimeMessage)])),
         binding)
  | None =>
      if isUpgrade request then
        (Returned (mkResponse 426 (Some workersRuntimeMessage) [] None), None)
      else
        (Returned (nextJson 200
                     (JObject [(str "error",
                                JString (str "This endpoint is for WebSocket connections only"));
                               (str "_devMode", JBool true);
                               (str "_message", JString workersRuntimeMessage)])),
         None)
  end.

End WebsocketRoute.

(* ===================================================================== *)
(** ** The reader's store ([app/store/useLiveBlogStore.ts]) *)
(* ===================================================================== *)

(** What an HTTP exchange gives the client: [fetch] rejecting, or a
    response with [response.ok] and the outcome of [response.json()]
    ([None] when it rejects). *)
Inductive HttpResult : Type :=
| NetworkError
| Http (ok : bool) (json : option JsValue).

(** [(data.atoms || []).reverse()]: [None] where it throws (the TypeError
    of reading a property of [null], or of calling [reverse] on a value that
    is not an array). *)
Definition reversedAtoms (data : JsValue) : option (list JsValue) :=
  match getProp (str "atoms") data with
  | None => None
  | Some v =>
      match js_or v (JArray []) with
      | JArray l => Some (rev l)
      | _ => None
      end
  end.

Module Store.

(** The state of the store; the atoms are what [JSON.parse] gave. *)
Record State : Type := mkState {
  atoms : list JsValue;
  isConnected : bool;
  connectionStatus : JsString;
  wsRef : option WebSocket
}.

Definition initial : State :=
  mkState [] false (str "Connecting...") None.

Definition setAtoms (l : list JsValue) (st : State) : State :=
  mkState l (isConnected st) (connectionStatus st) (wsRef st).

Definition addAtom (atom : JsValue) (st : State) : State :=
  mkState (atom :: atoms st) (isConnected st) (connectionStatus st) (wsRef st).

(** [fetchInitialAtoms], given the outcome of its request. *)
Definition fetchInitialAtoms (res : HttpResult) (st : State) : State :=
  match res with
  | Http true (Some data) =>
      match reversedAtoms data with
      | Some l => setAtoms l st
      | None => st
      end
  | _ => st
  end.

(** [ws.onmessage]; [parsed] is [JSON.parse(event.data)], [None] when it
    throws. *)
Definition onmessage (parsed : option JsValue) (st : State) : State :=
  match parsed with
  | None => st
  | Some message =>
      match getProp (str "type") message with
      | None => st
      | Some type =>
          if JsLib.isLiteral type (str "new_atom") then
            match getProp (str "atom") message with
            | Some atom => addAtom atom st
            | None => st
            end
          else st
      end
  end.

(** A run of messages, in arrival order. *)
Definition receive (messages : list (option JsValue)) (st : State) : State :=
  fold_left (fun s m => onmessage m s) messages st.

End Store.

(* ===================================================================== *)
(** ** The author page ([LiveBlogAuthor]) *)
(* ===================================================================== *)

Module AuthorPage.

(** The object [handlePublish] serializes as request body, [None] when it
    refuses the form ([Content cannot be empty]) and sends nothing. *)
Definition publishBody (content author : JsString) : option JsValue :=
  if negb (JsLib.nonEmpty (trim content)) then None
  else Some (JObject [(str "content", JString (trim content));
                      (str "author",
                       JString (if JsLib.nonEmpty (trim author) then trim author
                                else str "Anonymous"))]).

(** [fetchRecentAtoms], given the outcome of its request, on the
    [recentAtoms] state. *)
Definition fetchRecentAtoms (res : HttpResult) (recent : list JsValue)
    : list JsValue :=
  match res with
  | Http true (Some data) =>
      match reversedAtoms data with
      | Some l => JsLib.slice0 5 l
      | None => recent
      end
  | _ => recent
  end.

(** [setRecentAtoms((prev) => [data.atom, ...prev.slice(0, 4)])]. *)
Definition published (atom : JsValue) (prev : list JsValue) : list JsValue :=
  atom :: JsLib.slice0 4 prev.

End AuthorPage.

(* ===================================================================== *)
(** ** Vocabulary of the further properties *)
(* ===================================================================== *)

(** The ways a request to the instance can end. *)
Inductive FetchCase (e : Env) (r : Request) (w : World)
    (out : Outcome Response * World) : Prop :=
| FcNotFound :
    out = (Returned notFound, w) -> FetchCase e r w out
| FcUpgradeRequired :
    out = (Returned (mkResponse 426 (Some (str "Expected Upgrade: websocket")) [] None), w) ->
    FetchCase e r w out
| FcExpectedGet :
    out = (Returned (mkResponse 400 (Some (str "Expected GET method")) [] None), w) ->
    FetchCase e r w out
| FcUpgraded :
    out = (Returned (mkResponse 101 None [] (Some (nextSocket w))), upgraded e w) ->
    FetchCase e r w out
| FcListed :
    out = (Returned (listResponse (storedAtoms w)), w) -> FetchCase e r w out
| FcReadThrew :
    req_method r = str "GET" -> getFails e = true -> out = (Thrown, w) ->
    FetchCase e r w out
| FcFailedToCreate :
    out = (Returned failedToCreate, w) -> FetchCase e r w out
| FcContentRequired :
    out = (Returned contentRequired, w) -> FetchCase e r w out
| FcCreated (c : N) (s : JsString) (author : JsValue) :
    getFails e = false -> putFails e = false ->
    out = (Returned (createdResponse (newAtom e (c :: s) author)),
           appended e (newAtom e (c :: s) author) w) ->
    FetchCase e r w out
| FcMetadata (m : LiveBlogMetadata) :
    st_metadata (storage w) = Some m ->
    out = (Returned (metadataResponse m), w) -> FetchCase e r w out
| FcWriteThrew :
    req_method r = str "GET" -> putFails e = true ->
    st_metadata (storage w) = None -> out = (Thrown, w) ->
    FetchCase e r w out
| FcMetadataCreated :
    st_metadata (storage w) = None ->
    out = (Returned (metadataResponse (initialMetadata e w)), withMetadata e w) ->
    FetchCase e r w out.

(** An atom as [handleCreateAtom] leaves it: the content has no white
    space at either end and the author is a truthy value. *)
Definition wellFormedAtom (a : Atom) : Prop :=
  trim (atom_content a) = atom_content a /\ truthy (atom_author a) = true.

Definition isEvict (ev : Event) : bool :=
  match ev with
  | Evict _ => true
  | _ => false
  end.

(** The [webSocket] of the response a handler returned. *)
Definition res_webSocket_of (o : Outcome Response) : option WebSocket :=
  match o with
  | Returned resp => res_webSocket resp
  | Thrown => None
  end.

(** The URL path of an action on a blog: [/api/liveblog/{name}{action}],
    [action] being [/atoms], [/metadata] or [/websocket]. *)
Definition apiPath (name action : JsString) : JsString :=
  str "/api/liveblog/" ++ name ++ action.

(** The outcome of a request served by the room [name]: its response,
    and the namespace in which that room has moved on. *)
Definition servedBy (ns : Worker.Namespace) (name : JsString)
    (h : Outcome Response * World) : Outcome Response * Worker.Namespace :=
  (fst h, Worker.update ns name (snd h)).

(** The body of the listing, as the instance serializes it and the
    client reads it back. *)
Definition atomsData (log : list JsValue) : JsValue :=
  JObject [(str "atoms", JArray log)].

(** The wire message for an atom, as the instance serializes it and the
    client reads it back. *)
Definition newAtomData (atom : JsValue) : JsValue :=
  JObject [(str "type", JString (str "new_atom")); (str "atom", atom)].

(** The author [handlePublish] sends. *)
Definition publishedAuthor (author : JsString) : JsString :=
  if JsLib.nonEmpty (trim author) then trim author else str "Anonymous".

(** The UUIDs and the clock readings the platform hands to the requests
    of a run, in order. *)
Definition uuidsOf (evs : list Event) : list JsString :=
  flat_map (fun ev => match ev with
                      | Fetch e _ => [randomUUID e]
                      | _ => []
                      end) evs.

Definition clockOf (evs : list Event) : list Z :=
  flat_map (fun ev => match ev with
                      | Fetch e _ => [now e]
                      | _ => []
                      end) evs.

(* ===================================================================== *)
(** ** Basic facts *)
(* ===================================================================== *)

Lemma eqb_true_iff (a b : JsString) : JsStr.eqb a b = true <-> a = b.
Proof.
  unfold JsStr.eqb. destruct (list_eq_dec N.eq_dec a b); split; congruence.
Qed.

Lemma eqb_false_iff (a b : JsString) : JsStr.eqb a b = false <-> a <> b.
Proof.
  unfold JsStr.eqb. destruct (list_eq_dec N.eq_dec a b); split; congruence.
Qed.

Lemma eqb_refl (a : JsString) : JsStr.eqb a a = true.
Proof. now apply eqb_true_iff. Qed.

(** The model runs: strings, serialization and the scenario of a room
    that gets two posts, the second without author. *)
Example trim_sample :
  trim ([9; 32; 160; 65279] ++ str "a b" ++ [8232; 10; 13; 12288])%N = str "a b".
Proof. vm_compute. reflexivity. Qed.

Example quote_sample :
  quote [97; 34; 92; 10; 1; 55357; 56832; 56832]%N
  = ([34; 97; 92; 34; 92; 92] ++ str "\n\u0001" ++ [55357; 56832]
       ++ str "\ude00" ++ [34])%N.
Proof. vm_compute. reflexivity. Qed.

Example stringify_sample :
  stringify (JObject [(str "a", JNumber (-12)); (str "u", JUndefined);
                      (str "b", JArray [JString (str "x"); JUndefined; JBool true])])
  = Some (str "{" ++ quote (str "a") ++ str ":-12," ++ quote (str "b") ++ str ":["
          ++ quote (str "x") ++ str ",null,true]}").
Proof. vm_compute. reflexivity. Qed.

Example wire_message_sample :
  newAtomMessage (mkAtom (str "a1") (str "hi") 1002 (JString (str "Anonymous")))
  = Some (str "{" ++ quote (str "type") ++ str ":" ++ quote (str "new_atom")
          ++ str "," ++ quote (str "atom") ++ str ":{"
          ++ quote (str "id") ++ str ":" ++ quote (str "a1") ++ str ","
          ++ quote (str "content") ++ str ":" ++ quote (str "hi") ++ str ","
          ++ quote (str "timestamp") ++ str ":1002,"
          ++ quote (str "author") ++ str ":" ++ quote (str "Anonymous")
          ++ str "}}").
Proof. vm_compute. reflexivity. Qed.

Example scenario_breaking_news :
  let w0 := freshWorld (str "breaking-news") in
  let w1 := snd (fetch (calm (str "u1") 10)
                   (appendRequest (JString (str "Game starts")) (JString (str "Alex"))) w0) in
  let w2 := snd (fetch (calm (str "u2") 20)
                   (appendRequest (JString (str "Halftime")) JUndefined) w1) in
  storedAtoms w0 = []
  /\ storedAtoms w1 = [mkAtom (str "u1") (str "Game starts") 10 (JString (str "Alex"))]
  /\ storedAtoms w2
     = [mkAtom (str "u1") (str "Game starts") 10 (JString (str "Alex"));
        mkAtom (str "u2") (str "Halftime") 20 (JString (str "Anonymous"))].
Proof. vm_compute. repeat split. Qed.

Example scenario_failed_send :
  let w := run [Fetch (calm (str "s1") 1) upgradeRequest;
                Fetch (calm (str "s2") 2) upgradeRequest;
                Fetch (mkEnv (str "u1") 3 false false (fun ws => Nat.eqb ws 1))
                      (appendRequest (JString (str "hi")) JNull)]
               (freshWorld (str "room")) in
  sessions w = [(3, mkSession (str "s2"))]
  /\ webSockets w = [(1, Some (mkSession (str "s1"))); (3, Some (mkSession (str "s2")))]
  /\ sessions (step w (Evict (fun _ => true)))
     = [(1, mkSession (str "s1")); (3, mkSession (str "s2"))].
Proof. vm_compute. repeat split. Qed.

Lemma world_eta (w : World) :
  mkWorld (sessions w) (storage w) (webSockets w) (nextSocket w) (ctxId w) (trace w) = w.
Proof. now destruct w. Qed.

(* ===================================================================== *)
(** ** The WebSocket upgrade *)
(* ===================================================================== *)

Lemma upgrade_guard (r : Request) :
  match req_upgrade r with
  | None => true
  | Some h => JsStr.eqb h [] || negb (JsStr.eqb h (str "websocket"))
  end = negb (upgradeHeaderOk r).
Proof.
  unfold upgradeHeaderOk. destruct (req_upgrade r) as [h|]; [|reflexivity].
  destruct (JsStr.eqb h (str "websocket")) eqn:E; simpl.
  - apply eqb_true_iff in E. subst h. reflexivity.
  - now rewrite orb_true_r.
Qed.

Lemma handleWebSocketUpgrade_426 e r w :
  upgradeHeaderOk r = false ->
  handleWebSocketUpgrade e r w
  = (Returned (mkResponse 426 (Some (str "Expected Upgrade: websocket")) [] None), w).
Proof.
  intros H. unfold handleWebSocketUpgrade. rewrite upgrade_guard, H. reflexivity.
Qed.

Lemma handleWebSocketUpgrade_400 e r w :
  upgradeHeaderOk r = true -> req_method r <> str "GET" ->
  handleWebSocketUpgrade e r w
  = (Returned (mkResponse 400 (Some (str "Expected GET method")) [] None), w).
Proof.
  intros H Hm. unfold handleWebSocketUpgrade. rewrite upgrade_guard, H.
  apply eqb_false_iff in Hm. rewrite Hm. reflexivity.
Qed.

Lemma handleWebSocketUpgrade_101 e r w :
  upgradeHeaderOk r = true -> req_method r = str "GET" ->
  handleWebSocketUpgrade e r w
  = (Returned (mkResponse 101 None [] (Some (nextSocket w))), upgraded e w).
Proof.
  intros H Hm. unfold handleWebSocketUpgrade. rewrite upgrade_guard, H, Hm.
  rewrite eqb_refl. cbn [negb]. unfold upgraded.
  cbv [bind newWebSocketPair acceptWebSocket serializeAttachment getWorld
       setNextSocket setWebSockets setSessions emit ret fst snd
       sessions storage webSockets nextSocket ctxId trace].
  rewrite <- app_assoc. reflexivity.
Qed.

Lemma delivered_deliverable r : deliverable (delivered r).
Proof.
  unfold deliverable, delivered. destruct (upgradeHeaderOk r) eqn:Hu.
  - intros _. reflexivity.
  - intros H. congruence.
Qed.

Lemma deliverable_delivered r : deliverable r -> delivered r = r.
Proof.
  unfold deliverable, delivered. destruct (upgradeHeaderOk r); intros H; [|reflexivity].
  rewrite <- (H eq_refl). now destruct r.
Qed.




(* ===================================================================== *)
(** ** Routing *)
(* ===================================================================== *)




(* ===================================================================== *)
(** ** The broadcast loop *)
(* ===================================================================== *)

Lemma failsAmong_cons e ws s rest k :
  failsAmong e ((ws, s) :: rest) k
  = (Nat.eqb ws k && sendFails e ws) || failsAmong e rest k.
Proof. reflexivity. Qed.

Lemma filter_true {A} (l : list A) : filter (fun _ => true) l = l.
Proof. induction l as [|x l IH]; cbn; [reflexivity|now rewrite IH]. Qed.

Lemma filter_after_delete e ws s rest (m : list (WebSocket * Session)) :
  sendFails e ws = true ->
  filter (fun kv => negb (failsAmong e rest (fst kv))) (JsMap.delete ws m)
  = filter (fun kv => negb (failsAmong e ((ws, s) :: rest) (fst kv))) m.
Proof.
  intros Hs. unfold JsMap.delete.
  induction m as [|[k v] l IHl]; [reflexivity|].
  cbn [filter fst]. rewrite failsAmong_cons, Hs, andb_true_r.
  destruct (Nat.eqb ws k); cbn [negb orb filter fst].
  - exact IHl.
  - destruct (failsAmong e rest k); cbn [negb]; now rewrite IHl.
Qed.

Lemma filter_after_delivery e ws s rest (m : list (WebSocket * Session)) :
  sendFails e ws = false ->
  filter (fun kv => negb (failsAmong e rest (fst kv))) m
  = filter (fun kv => negb (failsAmong e ((ws, s) :: rest) (fst kv))) m.
Proof.
  intros Hs. apply filter_ext. intros [k v]. cbn [fst].
  now rewrite failsAmong_cons, Hs, andb_false_r.
Qed.

Lemma forEachSend_spec e message entries : forall w,
  forEachSend e message entries w
  = (Returned tt,
     mkWorld (filter (fun kv => negb (failsAmong e entries (fst kv))) (sessions w))
             (storage w) (webSockets w) (nextSocket w) (ctxId w)
             (trace w ++ broadcastTrace e message entries)).
Proof.
  induction entries as [|[ws s] rest IH]; intros w.
  - cbn. rewrite app_nil_r, filter_true. now rewrite world_eta.
  - cbn [forEachSend]. unfold send.
    destruct (sendFails e ws) eqn:Hs.
    + cbv [bind emit ret getWorld setSessions]. cbn [fst snd].
      rewrite IH. cbn [sessions storage webSockets nextSocket ctxId trace].
      rewrite (filter_after_delete e ws s rest (sessions w) Hs).
      rewrite <- app_assoc. cbn [broadcastTrace map fst app]. now rewrite Hs.
    + cbv [bind emit ret getWorld setSessions]. cbn [fst snd].
      rewrite IH. cbn [sessions storage webSockets nextSocket ctxId trace].
      rewrite <- (filter_after_delivery e ws s rest (sessions w) Hs).
      rewrite <- app_assoc. cbn [broadcastTrace map fst app]. now rewrite Hs.
Qed.

Lemma failsAmong_self e (m : list (WebSocket * Session)) kv :
  In kv m -> failsAmong e m (fst kv) = sendFails e (fst kv).
Proof.
  intros Hin. unfold failsAmong.
  destruct (sendFails e (fst kv)) eqn:Hs.
  - apply existsb_exists. exists kv. split; [exact Hin|].
    cbv beta. rewrite Nat.eqb_refl. exact Hs.
  - apply not_true_is_false. intros Hex.
    apply existsb_exists in Hex. destruct Hex as [en [_ Hen]].
    apply andb_true_iff in Hen. destruct Hen as [Hk Hf].
    apply Nat.eqb_eq in Hk. rewrite Hk in Hf. congruence.
Qed.

Lemma broadcast_spec e atom w :
  broadcastAtom e atom w
  = (Returned tt,
     mkWorld (surviving e (sessions w)) (storage w) (webSockets w)
             (nextSocket w) (ctxId w)
             (trace w ++ broadcastTrace e (newAtomMessage atom) (sessions w))).
Proof.
  unfold broadcastAtom. cbv [bind getWorld]. rewrite forEachSend_spec.
  f_equal. f_equal. unfold surviving.
  apply filter_ext_in. intros kv Hin. now rewrite failsAmong_self.
Qed.

(* ===================================================================== *)
(** ** Creating an atom *)
(* ===================================================================== *)

Lemma validContent_string content :
  validContent content = true <-> exists c s, content = JString (c :: s).
Proof.
  unfold validContent. split.
  - destruct content as [| |b|z|[|c s]|l|p]; cbn; try discriminate.
    + intros H. now rewrite andb_false_r in H.
    + intros H. now rewrite andb_false_r in H.
    + intros _. now exists c, s.
  - intros [c [s ->]]. reflexivity.
Qed.


Lemma guard_is_validContent content :
  negb (truthy content) || negb (isString content) = negb (validContent content).
Proof. unfold validContent. now rewrite negb_andb. Qed.

Lemma storeAtom_spec e atom w :
  getFails e = false -> putFails e = false ->
  storeAtom e atom w
  = (Returned tt,
     mkWorld (sessions w)
             (mkStorage (Some (storedAtoms w ++ [atom])) (st_metadata (storage w)))
             (webSockets w) (nextSocket w) (ctxId w)
             (trace w ++ [EPutAtoms (storedAtoms w ++ [atom])])).
Proof.
  intros Hg Hp. unfold storeAtom, getAllAtoms, storageGetAtoms, storagePutAtoms.
  rewrite Hg, Hp. reflexivity.
Qed.

Lemma storeAtom_fails e atom w :
  getFails e = true \/ putFails e = true ->
  storeAtom e atom w = (Thrown, w).
Proof.
  intros H. unfold storeAtom, getAllAtoms, storageGetAtoms, storagePutAtoms.
  destruct (getFails e); [reflexivity|].
  destruct H as [H|H]; [discriminate|]. rewrite H. reflexivity.
Qed.

(** The three ways [handleCreateAtom] ends once the body has been read. *)
Section CreateAtom.
Variables (e : Env) (request : Request) (w : World).
Variables (body content author : JsValue).
Hypothesis Hbody : req_json request = Some body.
Hypothesis Hcontent : getProp (str "content") body = Some content.
Hypothesis Hauthor : getProp (str "author") body = Some author.

Lemma handleCreateAtom_invalid :
  validContent content = false ->
  handleCreateAtom e request w = (Returned contentRequired, w).
Proof.
  intros Hv. unfold handleCreateAtom, tryCatch.
  rewrite Hbody. cbv [bind ret]. rewrite Hcontent, Hauthor.
  now rewrite guard_is_validContent, Hv.
Qed.

Lemma handleCreateAtom_storage_failure s :
  content = JString s -> s <> [] ->
  getFails e = true \/ putFails e = true ->
  handleCreateAtom e request w = (Returned failedToCreate, w).
Proof.
  intros Hs Hne Hf. unfold handleCreateAtom, tryCatch.
  rewrite Hbody. cbv [bind ret]. rewrite Hcontent, Hauthor. subst content.
  destruct s as [|c s]; [congruence|].
  cbv [callTrim ret]. cbn [truthy isString negb orb].
  now rewrite (storeAtom_fails e _ w Hf).
Qed.

Lemma handleCreateAtom_created s :
  content = JString s -> s <> [] ->
  getFails e = false -> putFails e = false ->
  handleCreateAtom e request w
  = (Returned (createdResponse (newAtom e s author)),
     appended e (newAtom e s author) w).
Proof.
  intros Hs Hne Hg Hp. unfold handleCreateAtom, tryCatch.
  rewrite Hbody. cbv [bind ret]. rewrite Hcontent, Hauthor. subst content.
  destruct s as [|c s]; [congruence|].
  cbv [callTrim ret]. cbn [truthy isString negb orb].
  fold (newAtom e (c :: s) author).
  rewrite (storeAtom_spec e _ w Hg Hp), broadcast_spec.
  cbn [sessions storage webSockets nextSocket ctxId trace].
  unfold appended. now rewrite <- app_assoc.
Qed.
End CreateAtom.
Arguments handleCreateAtom_invalid e request w {body content author}.
Arguments handleCreateAtom_storage_failure e request w {body content author} _ _ _ {s}.
Arguments handleCreateAtom_created e request w {body content author} _ _ _ {s}.

Lemma appendRequest_body content author :
  req_json (appendRequest content author)
    = Some (JObject [(str "content", content); (str "author", author)])
  /\ getProp (str "content") (JObject [(str "content", content); (str "author", author)])
     = Some content
  /\ getProp (str "author") (JObject [(str "content", content); (str "author", author)])
     = Some author.
Proof.
  split; [reflexivity|]. split.
  - cbn [getProp lookup]. now rewrite eqb_refl.
  - cbn [getProp lookup].
    replace (JsStr.eqb (str "author") (str "content")) with false
      by (vm_compute; reflexivity).
    now rewrite eqb_refl.
Qed.


(** Every way [handleCreateAtom] can end. *)
Lemma handleCreateAtom_cases e request w :
  handleCreateAtom e request w = (Returned failedToCreate, w)
  \/ handleCreateAtom e request w = (Returned contentRequired, w)
  \/ exists s author,
       getFails e = false /\ putFails e = false
       /\ handleCreateAtom e request w
          = (Returned (createdResponse (newAtom e s author)),
             appended e (newAtom e s author) w).
Proof.
  destruct (req_json request) as [body|] eqn:Hb.
  2:{ left. unfold handleCreateAtom, tryCatch. rewrite Hb. reflexivity. }
  destruct (getProp (str "content") body) as [content|] eqn:Hc.
  2:{ left. unfold handleCreateAtom, tryCatch. rewrite Hb. cbv [bind ret].
      rewrite Hc. reflexivity. }
  destruct (getProp (str "author") body) as [author|] eqn:Ha.
  2:{ left. unfold handleCreateAtom, tryCatch. rewrite Hb. cbv [bind ret].
      rewrite Hc, Ha. reflexivity. }
  destruct (validContent content) eqn:Hv.
  - apply validContent_string in Hv. destruct Hv as [c [s Hs]].
    assert (Hne : c :: s <> []) by discriminate.
    destruct (getFails e) eqn:Hg.
    + left. apply (handleCreateAtom_storage_failure e request w Hb Hc Ha Hs Hne). now left.
    + destruct (putFails e) eqn:Hp.
      * left. apply (handleCreateAtom_storage_failure e request w Hb Hc Ha Hs Hne). now right.
      * right. right. exists (c :: s), author. split; [reflexivity|]. split; [reflexivity|].
        apply (handleCreateAtom_created e request w Hb Hc Ha Hs Hne Hg Hp).
  - right. left. apply (handleCreateAtom_invalid e request w Hb Hc Ha Hv).
Qed.





Lemma get_surviving_failed e k (m : list (WebSocket * Session)) :
  sendFails e k = true -> JsMap.get k (surviving e m) = None.
Proof.
  intros Hk. induction m as [|[k' v] l IH]; [reflexivity|].
  cbn [surviving filter fst]. destruct (sendFails e k') eqn:Hk'; cbn [negb].
  - exact IH.
  - cbn [JsMap.get]. destruct (Nat.eqb k k') eqn:E.
    + apply Nat.eqb_eq in E. subst k'. congruence.
    + exact IH.
Qed.












(* ===================================================================== *)
(** ** Reading the log back *)
(* ===================================================================== *)

Lemma handleGetAtoms_spec e w :
  getFails e = false ->
  handleGetAtoms e w = (Returned (listResponse (storedAtoms w)), w).
Proof.
  intros Hg. unfold handleGetAtoms, getAllAtoms, storageGetAtoms.
  rewrite Hg. reflexivity.
Qed.

Lemma handleGetAtoms_fails e w :
  getFails e = true -> handleGetAtoms e w = (Thrown, w).
Proof.
  intros Hg. unfold handleGetAtoms, getAllAtoms, storageGetAtoms.
  rewrite Hg. reflexivity.
Qed.





(* ===================================================================== *)
(** ** Metadata *)
(* ===================================================================== *)

Lemma fetch_metadataRequest e w :
  fetch e metadataRequest w = handleGetMetadata e w.
Proof.
  unfold fetch. cbn [req_pathname req_method metadataRequest].
  replace (endsWith (str "/api/liveblog/room/metadata") (str "/websocket")) with false
    by (vm_compute; reflexivity).
  replace (endsWith (str "/api/liveblog/room/metadata") (str "/atoms")) with false
    by (vm_compute; reflexivity).
  replace (endsWith (str "/api/liveblog/room/metadata") (str "/metadata")) with true
    by (vm_compute; reflexivity).
  now rewrite eqb_refl.
Qed.

Lemma handleGetMetadata_fails e w :
  getFails e = true -> handleGetMetadata e w = (Thrown, w).
Proof.
  intros Hg. unfold handleGetMetadata, storageGetMetadata. rewrite Hg. reflexivity.
Qed.

Lemma handleGetMetadata_stored e w m :
  getFails e = false -> st_metadata (storage w) = Some m ->
  handleGetMetadata e w = (Returned (metadataResponse m), w).
Proof.
  intros Hg Hm. unfold handleGetMetadata, storageGetMetadata. rewrite Hg.
  cbv [bind getWorld ret]. rewrite Hm. reflexivity.
Qed.

Lemma handleGetMetadata_first e w :
  getFails e = false -> putFails e = false -> st_metadata (storage w) = None ->
  handleGetMetadata e w
  = (Returned (metadataResponse (initialMetadata e w)), withMetadata e w).
Proof.
  intros Hg Hp Hm. unfold handleGetMetadata, storageGetMetadata, storagePutMetadata.
  rewrite Hg, Hp. cbv [bind getWorld ret]. rewrite Hm. reflexivity.
Qed.

Lemma handleGetMetadata_put_fails e w :
  getFails e = false -> putFails e = true -> st_metadata (storage w) = None ->
  handleGetMetadata e w = (Thrown, w).
Proof.
  intros Hg Hp Hm. unfold handleGetMetadata, storageGetMetadata, storagePutMetadata.
  rewrite Hg, Hp. cbv [bind getWorld ret]. rewrite Hm. reflexivity.
Qed.

(** The world a request can leave. *)
Lemma fetch_world_cases e r w :
  snd (fetch e r w) = w
  \/ snd (fetch e r w) = upgraded e w
  \/ (exists atom, snd (fetch e r w) = appended e atom w)
  \/ (st_metadata (storage w) = None /\ snd (fetch e r w) = withMetadata e w).
Proof.
  unfold fetch.
  destruct (endsWith (req_pathname r) (str "/websocket")).
  { destruct (upgradeHeaderOk r) eqn:Hu.
    - destruct (JsStr.eqb (req_method r) (str "GET")) eqn:Hm.
      + apply eqb_true_iff in Hm.
        rewrite (handleWebSocketUpgrade_101 e r w Hu Hm). right. now left.
      + apply eqb_false_iff in Hm.
        rewrite (handleWebSocketUpgrade_400 e r w Hu Hm). now left.
    - rewrite (handleWebSocketUpgrade_426 e r w Hu). now left. }
  destruct (endsWith (req_pathname r) (str "/atoms")
            && JsStr.eqb (req_method r) (str "GET")).
  { destruct (getFails e) eqn:Hg.
    - rewrite (handleGetAtoms_fails e w Hg). now left.
    - rewrite (handleGetAtoms_spec e w Hg). now left. }
  destruct (endsWith (req_pathname r) (str "/atoms")
            && JsStr.eqb (req_method r) (str "POST")).
  { destruct (handleCreateAtom_cases e r w)
      as [H | [H | [s [author [_ [_ H]]]]]]; rewrite H.
    - now left.
    - now left.
    - right. right. left. now eexists. }
  destruct (endsWith (req_pathname r) (str "/metadata")
            && JsStr.eqb (req_method r) (str "GET")).
  { destruct (getFails e) eqn:Hg.
    - rewrite (handleGetMetadata_fails e w Hg). now left.
    - destruct (st_metadata (storage w)) as [m|] eqn:Hm.
      + rewrite (handleGetMetadata_stored e w m Hg Hm). now left.
      + destruct (putFails e) eqn:Hp.
        * rewrite (handleGetMetadata_put_fails e w Hg Hp Hm). now left.
        * rewrite (handleGetMetadata_first e w Hg Hp Hm). right. right. right.
          split; reflexivity. }
  now left.
Qed.

Lemma step_keeps_metadata w ev m :
  st_metadata (storage w) = Some m ->
  st_metadata (storage (step w ev)) = Some m.
Proof.
  intros Hm. destruct ev as [e r|ws|ws|ws|stillOpen]; cbn [step].
  - destruct (fetch_world_cases e r w) as [H | [H | [[atom H] | [Hnone H]]]];
      rewrite H; try exact Hm; congruence.
  - exact Hm.
  - unfold webSocketClose. cbv [bind getWorld].
    destruct (JsMap.get ws (sessions w)); exact Hm.
  - exact Hm.
  - exact Hm.
Qed.

Lemma run_keeps_metadata evs : forall w m,
  st_metadata (storage w) = Some m ->
  st_metadata (storage (run evs w)) = Some m.
Proof.
  induction evs as [|ev evs IH]; intros w m Hm; [exact Hm|].
  cbn [run fold_left]. apply IH. now apply step_keeps_metadata.
Qed.

(** C8: the first metadata request on a room without stored metadata
    answers with the synthesized value and stores it, its [createdAt] being
    the clock of that request; whatever happens to the room afterwards,
    every later metadata request answers with the same response, body
    included, and leaves the world, hence the stored value, as it is. *)
Theorem metadata_fixed_at_first_call e1 w :
  st_metadata (storage w) = None ->
  getFails e1 = false -> putFails e1 = false ->
  let m := initialMetadata e1 w in
  let first := fetch e1 metadataRequest w in
  fst first = Returned (metadataResponse m)
  /\ st_metadata (storage (snd first)) = Some m
  /\ meta_createdAt m = now e1
  /\ forall evs e2, getFails e2 = false ->
       let w2 := run evs (snd first) in
       fetch e2 metadataRequest w2 = (Returned (metadataResponse m), w2)
       /\ st_metadata (storage w2) = Some m.
Proof.
  intros Hnone Hg Hp m first. subst m first.
  rewrite fetch_metadataRequest, (handleGetMetadata_first e1 w Hg Hp Hnone).
  cbn [fst snd]. split; [reflexivity|]. split; [reflexivity|]. split; [reflexivity|].
  intros evs e2 Hg2.
  assert (Hkept : st_metadata (storage (run evs (withMetadata e1 w)))
                  = Some (initialMetadata e1 w))
    by (apply run_keeps_metadata; reflexivity).
  split; [|exact Hkept].
  rewrite fetch_metadataRequest. now apply handleGetMetadata_stored.
Qed.

Lemma metadata_fixed_at_first_call_witness :
  fetch (calm [] 99) metadataRequest
    (run [Fetch (calm (str "u") 5) (appendRequest (JString (str "hi")) JUndefined)]
         (snd (fetch (calm [] 1) metadataRequest (freshWorld (str "room")))))
  = (Returned (metadataResponse (initialMetadata (calm [] 1) (freshWorld (str "room")))),
     run [Fetch (calm (str "u") 5) (appendRequest (JString (str "hi")) JUndefined)]
         (snd (fetch (calm [] 1) metadataRequest (freshWorld (str "room"))))).
Proof.
  destruct (metadata_fixed_at_first_call (calm [] 1) (freshWorld (str "room"))
              eq_refl eq_refl eq_refl) as [_ [_ [_ Hlater]]].
  apply (Hlater [Fetch (calm (str "u") 5) (appendRequest (JString (str "hi")) JUndefined)]
                (calm [] 99) eq_refl).
Defined.

(* ===================================================================== *)
(** ** Rebuilding the registry *)
(* ===================================================================== *)

Lemma set_fresh {V} k (v : V) (m : list (WebSocket * V)) :
  ~ In k (map fst m) -> JsMap.set k v m = m ++ [(k, v)].
Proof.
  induction m as [|[k' v'] m IH]; intros Hn; [reflexivity|].
  cbn [JsMap.set]. destruct (Nat.eqb k k') eqn:E.
  - apply Nat.eqb_eq in E. subst k'. exfalso. apply Hn. now left.
  - cbn [app]. rewrite IH; [reflexivity|]. intros Hin. apply Hn. now right.
Qed.

Lemma in_set {V} k (v : V) (m : list (WebSocket * V)) kv :
  In kv (JsMap.set k v m) -> kv = (k, v) \/ In kv m.
Proof.
  induction m as [|[k' v'] m IH]; cbn [JsMap.set].
  - intros [H|[]]. now left.
  - destruct (Nat.eqb k k').
    + intros [H|H]; [now left|right; now right].
    + intros [H|H]; [right; now left|].
      destruct (IH H) as [H'|H']; [now left|right; now right].
Qed.

Lemma restore_fold l : forall acc,
  NoDup (map fst acc ++ map fst l) ->
  fold_left
    (fun acc wa =>
       match snd wa with
       | Some attachment => JsMap.set (fst wa) attachment acc
       | None => acc
       end) l acc
  = acc ++ attached l.
Proof.
  induction l as [|[k a] l IH]; intros acc Hnd.
  - cbn. now rewrite app_nil_r.
  - cbn [fold_left snd fst]. cbn [map fst] in Hnd.
    pose proof (NoDup_remove_1 _ _ _ Hnd) as Hrest.
    pose proof (NoDup_remove_2 _ _ _ Hnd) as Hk.
    destruct a as [s|].
    + rewrite set_fresh.
      2:{ intros Hin. apply Hk. apply in_or_app. now left. }
      rewrite IH.
      * cbn [attached flat_map snd fst]. now rewrite <- app_assoc.
      * rewrite map_app. cbn [map fst]. now rewrite <- app_assoc.
    + rewrite IH; [reflexivity|exact Hrest].
Qed.

Lemma restoreSessions_attached l :
  NoDup (map fst l) -> restoreSessions l = attached l.
Proof.
  intros Hnd. unfold restoreSessions. now rewrite restore_fold.
Qed.

Lemma in_attached l ws s :
  In (ws, s) (attached l) <-> In (ws, Some s) l.
Proof.
  unfold attached. rewrite in_flat_map. split.
  - intros [[k [a|]] [Hin Hx]]; cbn in Hx; [|contradiction].
    destruct Hx as [Hx|[]]. now inversion Hx; subst.
  - intros Hin. exists (ws, Some s). split; [exact Hin|]. now left.
Qed.

Lemma attached_keys l :
  map fst (attached l)
  = map fst (filter (fun wa => match snd wa with Some _ => true | None => false end) l).
Proof.
  induction l as [|[k [s|]] l IH]; [reflexivity| |exact IH].
  cbn. now rewrite <- IH.
Qed.

Lemma NoDup_keys_filter {V} (p : WebSocket * V -> bool) (l : list (WebSocket * V)) :
  NoDup (map fst l) -> NoDup (map fst (filter p l)).
Proof.
  induction l as [|x l IH]; intros Hnd; [constructor|].
  inversion Hnd as [|k ks Hk Hrest]; subst. cbn [filter].
  destruct (p x).
  - cbn [map]. constructor; [|now apply IH].
    intros Hin. apply Hk. apply in_map_iff in Hin. destruct Hin as [y [Hy Hin]].
    apply filter_In in Hin. apply in_map_iff. exists y. now split.
  - now apply IH.
Qed.

Lemma get_not_key {V} k (m : list (WebSocket * V)) :
  ~ In k (map fst m) -> JsMap.get k m = None.
Proof.
  induction m as [|[k' v] m IH]; intros Hn; [reflexivity|].
  cbn [JsMap.get]. destruct (Nat.eqb k k') eqn:E.
  - apply Nat.eqb_eq in E. subst k'. exfalso. apply Hn. now left.
  - apply IH. intros Hin. apply Hn. now right.
Qed.

Lemma NoDup_keys_unique {V} (l : list (WebSocket * V)) k v v' :
  NoDup (map fst l) -> In (k, v) l -> In (k, v') l -> v = v'.
Proof.
  induction l as [|[k0 v0] l IH]; intros Hnd H1 H2; [contradiction|].
  inversion Hnd as [|x xs Hk Hrest]; subst.
  destruct H1 as [H1|H1], H2 as [H2|H2].
  - congruence.
  - inversion H1; subst. exfalso. apply Hk.
    apply in_map_iff. now exists (k, v').
  - inversion H2; subst. exfalso. apply Hk.
    apply in_map_iff. now exists (k, v).
  - now apply IH.
Qed.

(* ===================================================================== *)
(** ** The invariant of reachable worlds *)
(* ===================================================================== *)

Lemma in_attachments tr ws s :
  In (ws, s) (attachments tr) <-> In (EAttach ws s) tr.
Proof.
  unfold attachments. rewrite in_flat_map. split.
  - intros [ef [Hin Hx]]. destruct ef; cbn in Hx; try contradiction.
    destruct Hx as [Hx|[]]. now inversion Hx; subst.
  - intros Hin. exists (EAttach ws s). split; [exact Hin|]. now left.
Qed.

Lemma attachments_app tr1 tr2 :
  attachments (tr1 ++ tr2) = attachments tr1 ++ attachments tr2.
Proof. unfold attachments. apply flat_map_app. Qed.

Lemma attachments_broadcastTrace e message entries :
  attachments (broadcastTrace e message entries) = [].
Proof. induction entries as [|kv rest IH]; [reflexivity|exact IH]. Qed.

Lemma Inv_fresh id : Inv (freshWorld id).
Proof.
  constructor; cbn; try contradiction. constructor.
Qed.

Lemma Inv_quiet {w w'} : Inv w -> quiet w w' -> Inv w'.
Proof.
  intros [Hnd Hheld Hbound Honce Hreg] [Hws [Hnext [Hatt Hincl]]].
  constructor; rewrite ?Hws, ?Hnext, ?Hatt; auto.
Qed.

Lemma quiet_appended e atom w : quiet w (appended e atom w).
Proof.
  repeat split; cbn [appended webSockets nextSocket trace sessions].
  - rewrite attachments_app. cbn [attachments flat_map].
    fold (attachments (broadcastTrace e (newAtomMessage atom) (sessions w))).
    rewrite attachments_broadcastTrace. cbn [app]. apply app_nil_r.
  - unfold surviving. intros kv Hin. now apply filter_In in Hin.
Qed.

Lemma quiet_withMetadata e w : quiet w (withMetadata e w).
Proof.
  repeat split; cbn [withMetadata webSockets nextSocket trace sessions].
  - rewrite attachments_app. cbn. apply app_nil_r.
  - apply incl_refl.
Qed.

Lemma delete_incl {V} k (m : list (WebSocket * V)) : incl (JsMap.delete k m) m.
Proof. unfold JsMap.delete. intros kv Hin. now apply filter_In in Hin. Qed.

Lemma quiet_close ws w : quiet w (snd (webSocketClose ws w)).
Proof.
  unfold webSocketClose. cbv [bind getWorld].
  destruct (JsMap.get ws (sessions w));
    (split; [reflexivity|split; [reflexivity|split]]);
    cbv [emit setSessions ret snd]; cbn [trace sessions].
  - rewrite attachments_app. cbn. apply app_nil_r.
  - apply delete_incl.
  - rewrite attachments_app. cbn. apply app_nil_r.
  - apply incl_refl.
Qed.

Lemma quiet_error ws w : quiet w (snd (webSocketError ws w)).
Proof.
  cbn. repeat split. apply delete_incl.
Qed.

Lemma attach_fresh ws s l :
  ~ In ws (map fst l) -> attach ws s (l ++ [(ws, None)]) = l ++ [(ws, Some s)].
Proof.
  intros Hn. unfold attach. rewrite map_app. cbn [map fst].
  rewrite Nat.eqb_refl. f_equal.
  induction l as [|[k a] l IH]; [reflexivity|].
  cbn [map fst]. destruct (Nat.eqb k ws) eqn:E.
  - apply Nat.eqb_eq in E. subst k. exfalso. apply Hn. now left.
  - rewrite IH; [reflexivity|]. intros Hin. apply Hn. now right.
Qed.

Lemma Inv_keys_bound {w ws} :
  Inv w -> In ws (map fst (webSockets w)) -> ws < nextSocket w.
Proof.
  intros HI Hin. apply in_map_iff in Hin. destruct Hin as [[k a] [Hk Hin]].
  cbn in Hk. subst k. destruct (inv_held HI _ _ Hin) as [s [_ Hs]].
  exact (inv_bound HI _ _ Hs).
Qed.

Lemma Inv_upgraded e w : Inv w -> Inv (upgraded e w).
Proof.
  intros HI.
  assert (Hfresh : ~ In (nextSocket w + 1) (map fst (webSockets w))).
  { intros Hin. apply (Inv_keys_bound HI) in Hin. lia. }
  assert (Hatt : attachments (trace (upgraded e w))
                 = attachments (trace w) ++ [(nextSocket w + 1, mkSession (randomUUID e))]).
  { cbn [upgraded trace]. now rewrite attachments_app. }
  assert (Hws : webSockets (upgraded e w)
                = webSockets w ++ [(nextSocket w + 1, Some (mkSession (randomUUID e)))]).
  { cbn [upgraded webSockets]. now apply attach_fresh. }
  constructor; rewrite ?Hatt, ?Hws.
  - rewrite map_app. cbn [map fst].
    apply NoDup_app; [exact (inv_nodup HI)|repeat constructor; intros []|].
    intros k Hk [Hk'|[]]. subst k. contradiction.
  - intros ws a Hin. apply in_app_or in Hin. destruct Hin as [Hin|[Hin|[]]].
    + destruct (inv_held HI _ _ Hin) as [s [Ha Hs]]. exists s.
      split; [exact Ha|apply in_or_app; now left].
    + inversion Hin; subst. eexists. split; [reflexivity|].
      apply in_or_app. right. now left.
  - intros ws s Hin. cbn [upgraded nextSocket].
    apply in_app_or in Hin. destruct Hin as [Hin|[Hin|[]]].
    + pose proof (inv_bound HI _ _ Hin). lia.
    + inversion Hin; subst. lia.
  - intros ws s s' H1 H2.
    apply in_app_or in H1. apply in_app_or in H2.
    destruct H1 as [H1|[H1|[]]], H2 as [H2|[H2|[]]].
    + exact (inv_once HI _ _ _ H1 H2).
    + inversion H2; subst. pose proof (inv_bound HI _ _ H1). lia.
    + inversion H1; subst. pose proof (inv_bound HI _ _ H2). lia.
    + congruence.
  - intros ws s Hin. cbn [upgraded sessions] in Hin.
    apply in_set in Hin. apply in_or_app. destruct Hin as [Hin|Hin].
    + inversion Hin; subst. right. now left.
    + left. exact (inv_registered HI _ _ Hin).
Qed.

Lemma Inv_evict stillOpen w : Inv w -> Inv (construct (passivate stillOpen w)).
Proof.
  intros HI.
  pose proof (NoDup_keys_filter (fun wa => stillOpen (fst wa)) (webSockets w)
                                (inv_nodup HI)) as Hnd.
  constructor; cbn [construct passivate webSockets trace nextSocket sessions].
  - exact Hnd.
  - intros ws a Hin. apply filter_In in Hin. exact (inv_held HI _ _ (proj1 Hin)).
  - exact (inv_bound HI).
  - exact (inv_once HI).
  - intros ws s Hin. rewrite (restoreSessions_attached _ Hnd) in Hin.
    now apply in_attached.
Qed.

Lemma step_Inv w ev : Inv w -> Inv (step w ev).
Proof.
  intros HI. destruct ev as [e r|ws|ws|ws|stillOpen]; cbn [step].
  - destruct (fetch_world_cases e r w) as [H | [H | [[atom H] | [_ H]]]]; rewrite H.
    + exact HI.
    + now apply Inv_upgraded.
    + exact (Inv_quiet HI (quiet_appended e atom w)).
    + exact (Inv_quiet HI (quiet_withMetadata e w)).
  - exact HI.
  - exact (Inv_quiet HI (quiet_close ws w)).
  - exact (Inv_quiet HI (quiet_error ws w)).
  - now apply Inv_evict.
Qed.

Lemma run_Inv evs : forall w, Inv w -> Inv (run evs w).
Proof.
  induction evs as [|ev evs IH]; intros w HI; [exact HI|].
  cbn [run fold_left]. apply IH. now apply step_Inv.
Qed.

Lemma reachable_Inv w : reachable w -> Inv w.
Proof.
  intros [id [evs ->]]. apply run_Inv. apply Inv_fresh.
Qed.

(** C7: the constructor rebuilds the registry from what the platform
    reports.  Over any listing without repeated connections it inserts
    exactly the connections that carry an attachment, each with the session
    attached, and leaves out a connection without one.  In a world the actor
    can reach, whichever connections the platform still reports and in
    whatever order, the rebuilt registry holds exactly the pairs persisted by
    [serializeAttachment] at upgrade time for the connections still
    reported, among them every pair the registry held for such a
    connection. *)
Theorem activation_round_trip :
  (forall reported,
      NoDup (map fst reported) ->
      (forall ws s, In (ws, s) (restoreSessions reported) <-> In (ws, Some s) reported)
      /\ (forall ws, In (ws, None) reported ->
            JsMap.get ws (restoreSessions reported) = None)
      /\ NoDup (map fst (restoreSessions reported)))
  /\ (forall w stillOpen reported,
        reachable w ->
        Permutation reported (filter (fun wa => stillOpen (fst wa)) (webSockets w)) ->
        (forall ws s,
            In (ws, s) (restoreSessions reported)
            <-> (In (EAttach ws s) (trace w)
                 /\ In ws (map fst (webSockets w)) /\ stillOpen ws = true))
        /\ (forall ws s, In (ws, s) (sessions w) -> stillOpen ws = true ->
              In (ws, s) (restoreSessions reported))
        /\ Permutation (restoreSessions reported)
                       (sessions (step w (Evict stillOpen)))).
Proof.
  assert (Hlisting : forall reported,
             NoDup (map fst reported) ->
             forall ws s, In (ws, s) (restoreSessions reported) <-> In (ws, Some s) reported).
  { intros reported Hnd ws s. rewrite (restoreSessions_attached _ Hnd).
    apply in_attached. }
  split.
  - intros reported Hnd. split; [now apply Hlisting|]. split.
    + intros ws Hnone. apply get_not_key. intros Hin.
      apply in_map_iff in Hin. destruct Hin as [[k s] [Hk Hin]]. cbn in Hk. subst k.
      apply (Hlisting _ Hnd) in Hin.
      pose proof (NoDup_keys_unique _ _ _ _ Hnd Hnone Hin). discriminate.
    + rewrite (restoreSessions_attached _ Hnd), attached_keys.
      now apply NoDup_keys_filter.
  - intros w stillOpen reported Hreach Hperm.
    pose proof (reachable_Inv w Hreach) as HI.
    pose proof (NoDup_keys_filter (fun wa => stillOpen (fst wa)) (webSockets w)
                                  (inv_nodup HI)) as Hndf.
    assert (Hnd : NoDup (map fst reported)).
    { apply (Permutation_NoDup (l := map fst (filter (fun wa => stillOpen (fst wa))
                                                     (webSockets w)))); [|exact Hndf].
      apply Permutation_map. now apply Permutation_sym. }
    assert (Hin_reported : forall ws a,
               In (ws, a) reported <-> (In (ws, a) (webSockets w) /\ stillOpen ws = true)).
    { intros ws a. split.
      - intros Hin. apply (Permutation_in _ Hperm) in Hin.
        apply filter_In in Hin. exact Hin.
      - intros [Hin Ho]. apply (Permutation_in _ (Permutation_sym Hperm)).
        apply filter_In. now split. }
    split; [|split].
    + intros ws s. rewrite (Hlisting _ Hnd), Hin_reported. split.
      * intros [Hin Ho]. destruct (inv_held HI _ _ Hin) as [s' [Hs' Hatt]].
        inversion Hs'; subst s'. split; [now apply in_attachments|].
        split; [|exact Ho]. apply in_map_iff. now exists (ws, Some s).
      * intros [Hatt [Hkey Ho]]. split; [|exact Ho].
        apply in_map_iff in Hkey. destruct Hkey as [[k a] [Hk Hin]].
        cbn in Hk. subst k.
        destruct (inv_held HI _ _ Hin) as [s' [Ha Hatt']]. subst a.
        apply in_attachments in Hatt.
        now rewrite (inv_once HI _ _ _ Hatt Hatt').
    + intros ws s Hin Ho. apply (Hlisting _ Hnd). apply Hin_reported.
      split; [exact (inv_registered HI _ _ Hin)|exact Ho].
    + cbn [step construct passivate sessions webSockets].
      rewrite (restoreSessions_attached _ Hnd), (restoreSessions_attached _ Hndf).
      unfold attached. now apply Permutation_flat_map.
Qed.

Lemma activation_round_trip_witness :
  In (EAttach 3 (mkSession (str "t")))
     (trace (run [Fetch (calm (str "s") 1) upgradeRequest;
                  Fetch (calm (str "t") 2) upgradeRequest] (freshWorld [])))
  /\ JsMap.get 5 (restoreSessions [(5, None); (3, Some (mkSession (str "t")))]) = None.
Proof.
  destruct activation_round_trip as [Hlisting Hreached]. split.
  - assert (Hreach : reachable
                       (run [Fetch (calm (str "s") 1) upgradeRequest;
                             Fetch (calm (str "t") 2) upgradeRequest] (freshWorld []))).
    { exists [], [Fetch (calm (str "s") 1) upgradeRequest;
                  Fetch (calm (str "t") 2) upgradeRequest]. reflexivity. }
    destruct (Hreached _ (fun ws => Nat.eqb ws 3) [(3, Some (mkSession (str "t")))]
                Hreach) as [Hiff _].
    + vm_compute. apply Permutation_refl.
    + apply (Hiff 3 (mkSession (str "t"))). vm_compute. now left.
  - destruct (Hlisting [(5, None); (3, Some (mkSession (str "t")))]) as [_ [Hnone _]].
    + cbn. repeat constructor; cbn; intuition discriminate.
    + apply Hnone. now left.
Defined.

(* ===================================================================== *)
(** ** Further properties of the instance *)
(* ===================================================================== *)

Lemma fetch_case e r w : FetchCase e r w (fetch e r w).
Proof.
  unfold fetch.
  destruct (endsWith (req_pathname r) (str "/websocket")).
  { destruct (upgradeHeaderOk r) eqn:Hu.
    - destruct (JsStr.eqb (req_method r) (str "GET")) eqn:Hm.
      + apply eqb_true_iff in Hm. apply FcUpgraded.
        now apply handleWebSocketUpgrade_101.
      + apply eqb_false_iff in Hm. apply FcExpectedGet.
        now apply handleWebSocketUpgrade_400.
    - apply FcUpgradeRequired. now apply handleWebSocketUpgrade_426. }
  destruct (endsWith (req_pathname r) (str "/atoms")
            && JsStr.eqb (req_method r) (str "GET")) eqn:Hroute.
  { apply andb_true_iff in Hroute. destruct Hroute as [_ Hm].
    apply eqb_true_iff in Hm.
    destruct (getFails e) eqn:Hg.
    - apply FcReadThrew; [exact Hm|exact Hg|now apply handleGetAtoms_fails].
    - apply FcListed. now apply handleGetAtoms_spec. }
  clear Hroute.
  destruct (endsWith (req_pathname r) (str "/atoms")
            && JsStr.eqb (req_method r) (str "POST")).
  { destruct (req_json r) as [body|] eqn:Hb.
    2:{ apply FcFailedToCreate. unfold handleCreateAtom, tryCatch.
        rewrite Hb. reflexivity. }
    destruct (getProp (str "content") body) as [content|] eqn:Hc.
    2:{ apply FcFailedToCreate. unfold handleCreateAtom, tryCatch.
        rewrite Hb. cbv [bind ret]. rewrite Hc. reflexivity. }
    destruct (getProp (str "author") body) as [author|] eqn:Ha.
    2:{ apply FcFailedToCreate. unfold handleCreateAtom, tryCatch.
        rewrite Hb. cbv [bind ret]. rewrite Hc, Ha. reflexivity. }
    destruct (validContent content) eqn:Hv.
    - apply validContent_string in Hv. destruct Hv as [c [s Hs]].
      assert (Hne : c :: s <> []) by discriminate.
      destruct (getFails e) eqn:Hg; [|destruct (putFails e) eqn:Hp].
      + apply FcFailedToCreate.
        apply (handleCreateAtom_storage_failure e r w Hb Hc Ha Hs Hne). now left.
      + apply FcFailedToCreate.
        apply (handleCreateAtom_storage_failure e r w Hb Hc Ha Hs Hne). now right.
      + apply (FcCreated e r w _ c s author Hg Hp).
        apply (handleCreateAtom_created e r w Hb Hc Ha Hs Hne Hg Hp).
    - apply FcContentRequired. apply (handleCreateAtom_invalid e r w Hb Hc Ha Hv). }
  destruct (endsWith (req_pathname r) (str "/metadata")
            && JsStr.eqb (req_method r) (str "GET")) eqn:Hroute.
  { apply andb_true_iff in Hroute. destruct Hroute as [_ Hm].
    apply eqb_true_iff in Hm.
    destruct (getFails e) eqn:Hg.
    - apply FcReadThrew; [exact Hm|exact Hg|now apply handleGetMetadata_fails].
    - destruct (st_metadata (storage w)) as [m|] eqn:Hmeta.
      + apply (FcMetadata e r w _ m Hmeta). now apply handleGetMetadata_stored.
      + destruct (putFails e) eqn:Hp.
        * apply FcWriteThrew; try assumption.
          now apply handleGetMetadata_put_fails.
        * apply FcMetadataCreated; [exact Hmeta|].
          now apply handleGetMetadata_first. }
  now apply FcNotFound.
Qed.

(** X1: a request to the instance is answered with one of six status
    codes or throws; it throws only on a GET whose storage read or write
    rejects, and then the room is left as it was; a POST never throws,
    whatever its body. *)
Theorem fetch_answers_or_throws_on_storage e r w :
  (forall resp, fst (fetch e r w) = Returned resp ->
     In (res_status resp) [101; 200; 400; 404; 426; 500]%Z)
  /\ (fst (fetch e r w) = Thrown ->
        req_method r = str "GET"
        /\ (getFails e = true \/ putFails e = true)
        /\ snd (fetch e r w) = w)
  /\ (exists resp, fst (handleCreateAtom e r w) = Returned resp).
Proof.
  split; [|split].
  - intros resp Hr.
    destruct (fetch_case e r w) as
      [H|H|H|H|H|Hm Hg H|H|H|c s a Hg Hp H|m Hs H|Hm Hp Hs H|Hs H];
      rewrite H in Hr; cbn [fst] in Hr; try discriminate;
      inversion Hr; subst resp; cbn; tauto.
  - intros Ht.
    destruct (fetch_case e r w) as
      [H|H|H|H|H|Hm Hg H|H|H|c s a Hg Hp H|m Hs H|Hm Hp Hs H|Hs H];
      rewrite H in Ht |- *; cbn [fst snd] in *; try discriminate.
    + split; [exact Hm|]. split; [now left|reflexivity].
    + split; [exact Hm|]. split; [now right|reflexivity].
  - destruct (handleCreateAtom_cases e r w) as [H | [H | [s [a [_ [_ H]]]]]];
      rewrite H; eexists; reflexivity.
Qed.

Lemma fetch_answers_or_throws_on_storage_witness :
  req_method listRequest = str "GET"
  /\ snd (fetch (mkEnv [] 0 true false (fun _ => false)) listRequest (freshWorld []))
     = freshWorld [].
Proof.
  destruct (fetch_answers_or_throws_on_storage
              (mkEnv [] 0 true false (fun _ => false)) listRequest (freshWorld []))
    as [_ [Hthrow _]].
  destruct (Hthrow eq_refl) as [Hm [_ Hw]]. split; [exact Hm|exact Hw].
Defined.

(** X2: a body that is not JSON, or is JSON [null], ends in the [catch]
    block: 500 [Failed to create atom]; a body that is a JSON boolean,
    number, string or array has no [content] and is refused with 400.
    Nothing is stored or sent in either case. *)
Theorem body_without_content_is_refused e r w :
  (req_json r = None \/ req_json r = Some JNull ->
     handleCreateAtom e r w = (Returned failedToCreate, w))
  /\ (forall body,
        req_json r = Some body ->
        (exists b, body = JBool b) \/ (exists z, body = JNumber z)
        \/ (exists s, body = JString s) \/ (exists l, body = JArray l) ->
        handleCreateAtom e r w = (Returned contentRequired, w)).
Proof.
  split.
  - intros [H|H]; unfold handleCreateAtom, tryCatch; rewrite H; reflexivity.
  - intros body Hb Hkind.
    assert (Hc : getProp (str "content") body = Some JUndefined
                 /\ getProp (str "author") body = Some JUndefined).
    { destruct Hkind as [[b ->]|[[z ->]|[[s ->]|[l ->]]]]; split; reflexivity. }
    destruct Hc as [Hc Ha].
    apply (handleCreateAtom_invalid e r w Hb Hc Ha). reflexivity.
Qed.

Lemma body_without_content_is_refused_witness :
  handleCreateAtom (calm [] 0)
    (mkRequest (str "/r/atoms") (str "POST") None (Some (JArray [JString (str "hi")])))
    (freshWorld [])
  = (Returned contentRequired, freshWorld []).
Proof.
  apply (proj2 (body_without_content_is_refused (calm [] 0)
                  (mkRequest (str "/r/atoms") (str "POST") None
                             (Some (JArray [JString (str "hi")])))
                  (freshWorld []))
               (JArray [JString (str "hi")]) eq_refl).
  right. right. right. now eexists.
Defined.

(** *** [trim] *)

Lemma trimStart_fixed s :
  match s with
  | [] => True
  | c :: _ => isWhiteSpace c = false
  end -> trimStart s = s.
Proof.
  destruct s as [|c r]; [reflexivity|]. cbn [trimStart]. now intros ->.
Qed.

Lemma trimStart_head s :
  match trimStart s with
  | [] => True
  | c :: _ => isWhiteSpace c = false
  end.
Proof.
  induction s as [|c r IH]; [exact I|]. cbn [trimStart].
  destruct (isWhiteSpace c) eqn:E; [exact IH|exact E].
Qed.

Lemma trimStart_idem s : trimStart (trimStart s) = trimStart s.
Proof. apply trimStart_fixed. apply trimStart_head. Qed.

Lemma trimStart_keeps_last l c :
  isWhiteSpace c = false -> exists u, trimStart (l ++ [c]) = u ++ [c].
Proof.
  intros Hc. induction l as [|x l IH].
  - exists []. cbn. now rewrite Hc.
  - cbn [app trimStart]. destruct (isWhiteSpace x).
    + exact IH.
    + now exists (x :: l).
Qed.

Lemma trimEnd_keeps_head t :
  match t with
  | [] => True
  | c :: _ => isWhiteSpace c = false
  end -> trimStart (trimEnd t) = trimEnd t.
Proof.
  intros Hhead. apply trimStart_fixed. unfold trimEnd.
  destruct t as [|c r]; [exact I|]. cbn [rev].
  destruct (trimStart_keeps_last (rev r) c Hhead) as [u Hu].
  rewrite Hu, rev_app_distr. exact Hhead.
Qed.

Lemma trimEnd_idem t : trimEnd (trimEnd t) = trimEnd t.
Proof.
  unfold trimEnd. now rewrite rev_involutive, trimStart_idem.
Qed.

Lemma trim_idem s : trim (trim s) = trim s.
Proof.
  unfold trim. rewrite (trimEnd_keeps_head (trimStart s) (trimStart_head s)).
  apply trimEnd_idem.
Qed.

(** *** The log *)

Lemma newAtom_wellFormed e s author : wellFormedAtom (newAtom e s author).
Proof.
  split.
  - cbn [newAtom atom_content]. apply trim_idem.
  - cbn [newAtom atom_author]. unfold js_or.
    destruct (truthy author) eqn:E; [exact E|reflexivity].
Qed.

Lemma step_log w ev :
  storedAtoms (step w ev) = storedAtoms w
  \/ exists atom, wellFormedAtom atom
                  /\ storedAtoms (step w ev) = storedAtoms w ++ [atom].
Proof.
  destruct ev as [e r|ws|ws|ws|stillOpen]; cbn [step].
  - destruct (fetch_case e r w) as
      [H|H|H|H|H|Hm Hg H|H|H|c s a Hg Hp H|m Hs H|Hm Hp Hs H|Hs H];
      rewrite H; cbn [snd]; try (now left).
    right. exists (newAtom e (c :: s) a). split; [apply newAtom_wellFormed|reflexivity].
  - now left.
  - left. unfold webSocketClose. cbv [bind getWorld].
    destruct (JsMap.get ws (sessions w)); reflexivity.
  - now left.
  - now left.
Qed.

Lemma run_log evs : forall w,
  exists suffix,
    storedAtoms (run evs w) = storedAtoms w ++ suffix
    /\ List.length suffix <= List.length evs
    /\ Forall wellFormedAtom suffix.
Proof.
  induction evs as [|ev evs IH]; intros w.
  - exists []. cbn. rewrite app_nil_r. repeat split; [lia|constructor].
  - cbn [run fold_left]. fold (run evs (step w ev)).
    destruct (IH (step w ev)) as [suffix [Hs [Hlen Hwf]]].
    destruct (step_log w ev) as [Hsame | [atom [Hatom Hext]]].
    + exists suffix. rewrite Hs, Hsame. repeat split; [cbn; lia|exact Hwf].
    + exists (atom :: suffix). rewrite Hs, Hext, <- app_assoc.
      repeat split; [cbn; lia|now constructor].
Qed.

(** X3: the log only grows at its end.  One event leaves the stored
    atoms as they are or appends exactly one atom; over any run, from any
    world, what was stored is still there, in place, followed by at most one
    new atom per event. *)
Theorem log_is_append_only :
  (forall w ev,
      storedAtoms (step w ev) = storedAtoms w
      \/ exists atom, storedAtoms (step w ev) = storedAtoms w ++ [atom])
  /\ (forall evs w,
        exists suffix,
          storedAtoms (run evs w) = storedAtoms w ++ suffix
          /\ List.length suffix <= List.length evs).
Proof.
  split.
  - intros w ev. destruct (step_log w ev) as [H | [atom [_ H]]];
      [now left|right; now exists atom].
  - intros evs w. destruct (run_log evs w) as [suffix [Hs [Hlen _]]].
    now exists suffix.
Qed.

(** X4: every atom stored in a room that started empty has a content
    without white space at either end and an author that is a truthy value,
    whatever requests and signals the room went through. *)
Theorem stored_atoms_are_well_formed id evs :
  Forall wellFormedAtom (storedAtoms (run evs (freshWorld id))).
Proof.
  destruct (run_log evs (freshWorld id)) as [suffix [Hs [_ Hwf]]].
  rewrite Hs. exact Hwf.
Qed.

(** *** Metadata *)

Lemma step_ctxId w ev : ctxId (step w ev) = ctxId w.
Proof.
  destruct ev as [e r|ws|ws|ws|stillOpen]; cbn [step]; try reflexivity.
  - destruct (fetch_case e r w) as
      [H|H|H|H|H|Hm Hg H|H|H|c s a Hg Hp H|m Hs H|Hm Hp Hs H|Hs H];
      rewrite H; reflexivity.
  - unfold webSocketClose. cbv [bind getWorld].
    destruct (JsMap.get ws (sessions w)); reflexivity.
Qed.

Lemma step_metadata w ev m :
  st_metadata (storage (step w ev)) = Some m ->
  st_metadata (storage w) = Some m \/ exists e, m = initialMetadata e w.
Proof.
  destruct ev as [e r|ws|ws|ws|stillOpen]; cbn [step]; try (now left).
  - destruct (fetch_case e r w) as
      [H|H|H|H|H|Hm Hg H|H|H|c s a Hg Hp H|m' Hs H|Hm Hp Hs H|Hs H];
      rewrite H; cbn [snd]; try (now left).
    cbn [withMetadata storage st_metadata]. intros Heq. right. exists e. congruence.
  - unfold webSocketClose. cbv [bind getWorld].
    destruct (JsMap.get ws (sessions w)); now left.
Qed.

(** X9: the metadata a room holds describes that room: whatever the
    room went through since it was created with id [id], its actor id is
    still [id] and stored metadata, if any, has that id and the name
    [Live Blog ] followed by the first eight code units of the id, at most
    eighteen code units in all. *)
Theorem metadata_describes_the_room id evs :
  let w := run evs (freshWorld id) in
  ctxId w = id
  /\ forall m, st_metadata (storage w) = Some m ->
       meta_id m = id
       /\ meta_name m = str "Live Blog " ++ substring0 8 id
       /\ List.length (meta_name m) <= 18.
Proof.
  cbv zeta.
  assert (Hinv : forall evs w,
             ctxId w = id ->
             (forall m, st_metadata (storage w) = Some m ->
                meta_id m = id /\ meta_name m = str "Live Blog " ++ substring0 8 id) ->
             ctxId (run evs w) = id
             /\ forall m, st_metadata (storage (run evs w)) = Some m ->
                  meta_id m = id /\ meta_name m = str "Live Blog " ++ substring0 8 id).
  { clear evs. induction evs as [|ev evs IH]; intros w Hid Hm; [now split|].
    cbn [run fold_left]. apply IH.
    - now rewrite step_ctxId.
    - intros m Hs. destruct (step_metadata w ev m Hs) as [Hold | [e ->]].
      + now apply Hm.
      + cbn [initialMetadata meta_id meta_name]. now rewrite Hid. }
  destruct (Hinv evs (freshWorld id) eq_refl) as [Hid Hm].
  { intros m Hs. discriminate. }
  split; [exact Hid|]. intros m Hs. destruct (Hm m Hs) as [H1 H2].
  split; [exact H1|]. split; [exact H2|].
  rewrite H2, length_app. unfold substring0.
  pose proof (firstn_le_length 8 id) as Hle.
  change (List.length (str "Live Blog ")) with 10. lia.
Qed.

Lemma metadata_describes_the_room_witness :
  meta_name (initialMetadata (calm [] 5) (freshWorld (str "0123456789abcdef")))
  = str "Live Blog 01234567".
Proof.
  destruct (metadata_describes_the_room (str "0123456789abcdef")
              [Fetch (calm [] 5) metadataRequest]) as [_ Hm].
  destruct (Hm (initialMetadata (calm [] 5) (freshWorld (str "0123456789abcdef")))
               eq_refl) as [_ [Hname _]].
  exact Hname.
Defined.

(** *** The registry *)

Lemma get_delete_same {V} k (m : list (WebSocket * V)) :
  JsMap.get k (JsMap.delete k m) = None.
Proof.
  unfold JsMap.delete. induction m as [|[k' v] m IH]; [reflexivity|].
  cbn [filter fst]. destruct (Nat.eqb k k') eqn:E; cbn [negb].
  - exact IH.
  - cbn [JsMap.get]. now rewrite E.
Qed.

Lemma get_delete_other {V} k k' (m : list (WebSocket * V)) :
  k' <> k -> JsMap.get k' (JsMap.delete k m) = JsMap.get k' m.
Proof.
  intros Hne. unfold JsMap.delete. induction m as [|[k0 v] m IH]; [reflexivity|].
  cbn [filter fst JsMap.get]. destruct (Nat.eqb k k0) eqn:E; cbn [negb].
  - apply Nat.eqb_eq in E. subst k0.
    destruct (Nat.eqb k' k) eqn:E'; [apply Nat.eqb_eq in E'; contradiction|exact IH].
  - cbn [JsMap.get]. now rewrite IH.
Qed.

Lemma get_none_not_key {V} k (m : list (WebSocket * V)) :
  JsMap.get k m = None -> ~ In k (map fst m).
Proof.
  induction m as [|[k' v] m IH]; intros Hg; [intros []|].
  cbn [JsMap.get] in Hg. destruct (Nat.eqb k k') eqn:E; [discriminate|].
  apply Nat.eqb_neq in E. intros [H|H]; [cbn in H; congruence|now apply IH].
Qed.

Lemma keys_set {V} k (v : V) (m : list (WebSocket * V)) k' :
  In k' (map fst (JsMap.set k v m)) -> k' = k \/ In k' (map fst m).
Proof.
  intros Hin. apply in_map_iff in Hin. destruct Hin as [[k0 v0] [Hk Hin]].
  cbn in Hk. subst k0. apply in_set in Hin. destruct Hin as [Hin|Hin].
  - left. congruence.
  - right. apply in_map_iff. now exists (k', v0).
Qed.

Lemma keys_incl {V} (m m' : list (WebSocket * V)) k :
  incl m' m -> In k (map fst m') -> In k (map fst m).
Proof.
  intros Hincl Hin. apply in_map_iff in Hin. destruct Hin as [kv [Hk Hin]].
  apply in_map_iff. exists kv. split; [exact Hk|now apply Hincl].
Qed.

Lemma Inv_sessions_bound {w ws} :
  Inv w -> In ws (map fst (sessions w)) -> ws < nextSocket w.
Proof.
  intros HI Hin. apply in_map_iff in Hin. destruct Hin as [[k s] [Hk Hin]].
  cbn in Hk. subst k. apply (Inv_keys_bound HI).
  apply in_map_iff. exists (ws, Some s). split; [reflexivity|].
  exact (inv_registered HI _ _ Hin).
Qed.

Lemma upgraded_sessions e w :
  Inv w ->
  sessions (upgraded e w)
  = sessions w ++ [(nextSocket w + 1, mkSession (randomUUID e))].
Proof.
  intros HI. cbn [upgraded sessions]. apply set_fresh.
  intros Hin. apply (Inv_sessions_bound HI) in Hin. lia.
Qed.

Lemma step_sessions_nodup w ev :
  Inv w -> NoDup (map fst (sessions w)) -> NoDup (map fst (sessions (step w ev))).
Proof.
  intros HI Hnd. destruct ev as [e r|ws|ws|ws|stillOpen]; cbn [step].
  - destruct (fetch_world_cases e r w) as [H | [H | [[atom H] | [_ H]]]]; rewrite H.
    + exact Hnd.
    + rewrite (upgraded_sessions e w HI), map_app. cbn [map fst].
      apply NoDup_app; [exact Hnd|repeat constructor; intros []|].
      intros k Hk [Hk'|[]]. subst k. apply (Inv_sessions_bound HI) in Hk. lia.
    + cbn [appended sessions]. unfold surviving. now apply NoDup_keys_filter.
    + exact Hnd.
  - exact Hnd.
  - unfold webSocketClose. cbv [bind getWorld].
    destruct (JsMap.get ws (sessions w)); cbn; [|exact Hnd].
    unfold JsMap.delete. now apply NoDup_keys_filter.
  - cbn. unfold JsMap.delete. now apply NoDup_keys_filter.
  - cbn [construct passivate sessions webSockets].
    pose proof (NoDup_keys_filter (fun wa => stillOpen (fst wa)) (webSockets w)
                                  (inv_nodup HI)) as Hndf.
    rewrite (restoreSessions_attached _ Hndf), attached_keys.
    now apply NoDup_keys_filter.
Qed.

Lemma reachable_sessions_nodup w : reachable w -> NoDup (map fst (sessions w)).
Proof.
  intros [id [evs ->]].
  assert (H : forall evs w, Inv w -> NoDup (map fst (sessions w)) ->
                            NoDup (map fst (sessions (run evs w)))).
  { clear evs. induction evs as [|ev evs IH]; intros w HI Hnd; [exact Hnd|].
    cbn [run fold_left]. apply IH; [now apply step_Inv|now apply step_sessions_nodup]. }
  apply H; [apply Inv_fresh|constructor].
Qed.

(** X5: in every world the actor can reach the registry holds a
    connection at most once, and each entry is a connection the platform
    holds, allocated earlier, together with the session that was attached to
    it when it was accepted. *)
Theorem registry_is_sound w :
  reachable w ->
  NoDup (map fst (sessions w))
  /\ forall ws s, In (ws, s) (sessions w) ->
       In (EAttach ws s) (trace w)
       /\ In (ws, Some s) (webSockets w)
       /\ ws < nextSocket w.
Proof.
  intros Hreach. pose proof (reachable_Inv w Hreach) as HI.
  split; [now apply reachable_sessions_nodup|].
  intros ws s Hin. pose proof (inv_registered HI _ _ Hin) as Hheld.
  destruct (inv_held HI _ _ Hheld) as [s' [Hs' Hatt]]. inversion Hs'; subst s'.
  split; [now apply in_attachments|]. split; [exact Hheld|].
  exact (inv_bound HI _ _ Hatt).
Qed.

Lemma registry_is_sound_witness :
  NoDup (map fst (sessions (run [Fetch (calm (str "s") 1) upgradeRequest;
                                 Fetch (calm (str "t") 2) upgradeRequest]
                                (freshWorld [])))).
Proof.
  apply (registry_is_sound
           (run [Fetch (calm (str "s") 1) upgradeRequest;
                 Fetch (calm (str "t") 2) upgradeRequest] (freshWorld []))).
  exists [], [Fetch (calm (str "s") 1) upgradeRequest;
              Fetch (calm (str "t") 2) upgradeRequest]. reflexivity.
Defined.

(** X6: a close or error signal for a connection removes that
    connection from the registry and no other; neither touches the storage or
    the platform's listing.  The close handler calls [ws.close] whether or
    not the connection was registered, the error handler records nothing,
    and a message from a reader changes nothing at all. *)
Theorem connection_signals_remove_only_their_session w ws :
  (let w' := snd (webSocketClose ws w) in
   JsMap.get ws (sessions w') = None
   /\ (forall k, k <> ws -> JsMap.get k (sessions w') = JsMap.get k (sessions w))
   /\ trace w' = trace w ++ [EClose ws]
   /\ storage w' = storage w /\ webSockets w' = webSockets w)
  /\ (let w' := snd (webSocketError ws w) in
      JsMap.get ws (sessions w') = None
      /\ (forall k, k <> ws -> JsMap.get k (sessions w') = JsMap.get k (sessions w))
      /\ trace w' = trace w
      /\ storage w' = storage w /\ webSockets w' = webSockets w)
  /\ snd (webSocketMessage ws w) = w.
Proof.
  split; [|split; [|reflexivity]]; cbv zeta.
  - unfold webSocketClose. cbv [bind getWorld].
    destruct (JsMap.get ws (sessions w)) eqn:Hg; cbn.
    + split; [apply get_delete_same|]. split; [|repeat split].
      intros k Hk. now apply get_delete_other.
    + split; [exact Hg|]. repeat split.
  - cbn. split; [apply get_delete_same|]. split; [|repeat split].
    intros k Hk. now apply get_delete_other.
Qed.

(** X7: in a reachable world an accepted upgrade appends exactly one
    entry to the registry, for a server socket that was not registered
    before, with the session id just generated; the client socket returned to
    the caller is not registered; the platform's listing gains the server
    socket with the same session attached; the storage is untouched. *)
Theorem upgrade_registers_one_new_session e r w :
  reachable w ->
  upgradeHeaderOk r = true -> req_method r = str "GET" ->
  let server := nextSocket w + 1 in
  let session := mkSession (randomUUID e) in
  let w' := snd (handleWebSocketUpgrade e r w) in
  res_webSocket_of (fst (handleWebSocketUpgrade e r w)) = Some (nextSocket w)
  /\ sessions w' = sessions w ++ [(server, session)]
  /\ ~ In server (map fst (sessions w))
  /\ ~ In (nextSocket w) (map fst (sessions w'))
  /\ webSockets w' = webSockets w ++ [(server, Some session)]
  /\ storage w' = storage w.
Proof.
  intros Hreach Hu Hm server session w'. subst server session w'.
  pose proof (reachable_Inv w Hreach) as HI.
  rewrite (handleWebSocketUpgrade_101 e r w Hu Hm). cbn [fst snd].
  assert (Hfresh : forall k, nextSocket w <= k -> ~ In k (map fst (sessions w))).
  { intros k Hk Hin. apply (Inv_sessions_bound HI) in Hin. lia. }
  split; [reflexivity|]. split; [now apply upgraded_sessions|].
  split; [apply Hfresh; lia|]. split; [|split; [|reflexivity]].
  - rewrite (upgraded_sessions e w HI), map_app. cbn [map fst].
    intros Hin. apply in_app_or in Hin. destruct Hin as [Hin|[Hin|[]]].
    + now apply (Hfresh (nextSocket w)).
    + lia.
  - cbn [upgraded webSockets]. apply attach_fresh.
    intros Hin. apply (Inv_keys_bound HI) in Hin. lia.
Qed.

Lemma connection_signals_remove_only_their_session_witness :
  JsMap.get 3 (sessions (snd (webSocketClose 1
     (run [Fetch (calm (str "s") 1) upgradeRequest;
           Fetch (calm (str "t") 2) upgradeRequest] (freshWorld [])))))
  = Some (mkSession (str "t")).
Proof.
  destruct (connection_signals_remove_only_their_session
              (run [Fetch (calm (str "s") 1) upgradeRequest;
                    Fetch (calm (str "t") 2) upgradeRequest] (freshWorld [])) 1)
    as [[_ [Hother _]] _].
  rewrite (Hother 3); [reflexivity|discriminate].
Defined.

Lemma upgrade_registers_one_new_session_witness :
  sessions (snd (handleWebSocketUpgrade (calm (str "t") 2) upgradeRequest
                   (run [Fetch (calm (str "s") 1) upgradeRequest] (freshWorld []))))
  = [(1, mkSession (str "s")); (3, mkSession (str "t"))].
Proof.
  assert (Hreach : reachable (run [Fetch (calm (str "s") 1) upgradeRequest]
                                  (freshWorld []))).
  { exists [], [Fetch (calm (str "s") 1) upgradeRequest]. reflexivity. }
  destruct (upgrade_registers_one_new_session (calm (str "t") 2) upgradeRequest
              _ Hreach eq_refl eq_refl) as [_ [Hs _]].
  rewrite Hs. reflexivity.
Defined.

Lemma in_broadcastTrace_key e message entries ws m d :
  In (ESend ws m d) (broadcastTrace e message entries) ->
  In ws (map fst entries).
Proof.
  unfold broadcastTrace. intros Hin. apply in_map_iff in Hin.
  destruct Hin as [kv [Heq Hin]]. inversion Heq; subst.
  apply in_map_iff. now exists kv.
Qed.

(** A connection outside the registry, with a handle already allocated,
    stays outside and is sent nothing as long as the actor is not
    reconstructed. *)
Lemma step_keeps_out w ws ev :
  isEvict ev = false ->
  ws < nextSocket w -> ~ In ws (map fst (sessions w)) ->
  ws < nextSocket (step w ev)
  /\ ~ In ws (map fst (sessions (step w ev)))
  /\ forall m d, In (ESend ws m d) (trace (step w ev)) -> In (ESend ws m d) (trace w).
Proof.
  intros Hev Hlt Hout. destruct ev as [e r|ws'|ws'|ws'|stillOpen]; cbn [step];
    try discriminate.
  - destruct (fetch_world_cases e r w) as [H | [H | [[atom H] | [_ H]]]]; rewrite H.
    + repeat split; auto.
    + cbn [upgraded nextSocket sessions trace]. split; [lia|]. split.
      * intros Hin. apply keys_set in Hin. destruct Hin as [Hin|Hin]; [lia|contradiction].
      * intros m d Hin. apply in_app_or in Hin.
        destruct Hin as [Hin|[Hin|[Hin|[]]]]; [exact Hin|discriminate|discriminate].
    + cbn [appended nextSocket sessions trace]. split; [exact Hlt|]. split.
      * intros Hin. apply Hout. revert Hin. apply keys_incl.
        unfold surviving. intros kv Hkv. now apply filter_In in Hkv.
      * intros m d Hin. apply in_app_or in Hin. destruct Hin as [Hin|[Hin|Hin]].
        -- exact Hin.
        -- discriminate.
        -- apply in_broadcastTrace_key in Hin. contradiction.
    + cbn [withMetadata nextSocket sessions trace]. split; [exact Hlt|].
      split; [exact Hout|]. intros m d Hin. apply in_app_or in Hin.
      destruct Hin as [Hin|[Hin|[]]]; [exact Hin|discriminate].
  - repeat split; auto.
  - unfold webSocketClose. cbv [bind getWorld].
    destruct (JsMap.get ws' (sessions w)); cbn.
    + split; [exact Hlt|]. split.
      * intros Hin. apply Hout. revert Hin. apply keys_incl. apply delete_incl.
      * intros m d Hin. apply in_app_or in Hin.
        destruct Hin as [Hin|[Hin|[]]]; [exact Hin|discriminate].
    + split; [exact Hlt|]. split; [exact Hout|].
      intros m d Hin. apply in_app_or in Hin.
      destruct Hin as [Hin|[Hin|[]]]; [exact Hin|discriminate].
  - cbn. split; [exact Hlt|]. split; [|auto].
    intros Hin. apply Hout. revert Hin. apply keys_incl. apply delete_incl.
Qed.

Lemma run_keeps_out ws evs : forall w,
  forallb (fun ev => negb (isEvict ev)) evs = true ->
  ws < nextSocket w -> ~ In ws (map fst (sessions w)) ->
  forall m d, In (ESend ws m d) (trace (run evs w)) -> In (ESend ws m d) (trace w).
Proof.
  induction evs as [|ev evs IH]; intros w Hev Hlt Hout m d Hin; [exact Hin|].
  cbn [forallb] in Hev. apply andb_true_iff in Hev. destruct Hev as [Hev Hrest].
  apply negb_true_iff in Hev.
  destruct (step_keeps_out w ws ev Hev Hlt Hout) as [Hlt' [Hout' Htrace]].
  apply Htrace. exact (IH (step w ev) Hrest Hlt' Hout' m d Hin).
Qed.

Lemma connection_signal_facts w ws :
  (nextSocket (step w (SocketClose ws)) = nextSocket w
   /\ ~ In ws (map fst (sessions (step w (SocketClose ws))))
   /\ forall m d, In (ESend ws m d) (trace (step w (SocketClose ws))) ->
                  In (ESend ws m d) (trace w))
  /\ (nextSocket (step w (SocketError ws)) = nextSocket w
      /\ ~ In ws (map fst (sessions (step w (SocketError ws))))
      /\ forall m d, In (ESend ws m d) (trace (step w (SocketError ws))) ->
                     In (ESend ws m d) (trace w)).
Proof.
  split; cbn [step].
  - unfold webSocketClose. cbv [bind getWorld].
    destruct (JsMap.get ws (sessions w)) eqn:Hg; cbn.
    + split; [reflexivity|]. split.
      * apply get_none_not_key. apply get_delete_same.
      * intros m d Hin. apply in_app_or in Hin.
        destruct Hin as [Hin|[Hin|[]]]; [exact Hin|discriminate].
    + split; [reflexivity|]. split.
      * now apply get_none_not_key.
      * intros m d Hin. apply in_app_or in Hin.
        destruct Hin as [Hin|[Hin|[]]]; [exact Hin|discriminate].
  - cbn. split; [reflexivity|]. split; [|auto].
    apply get_none_not_key. apply get_delete_same.
Qed.

(** X8: once a close or an error signal has removed a connection, no
    later broadcast is sent to it: whatever requests and signals follow, as
    long as the actor is not reconstructed, the trace gains no send to that
    connection. *)
Theorem removed_session_gets_no_broadcast w ws evs :
  ws < nextSocket w ->
  forallb (fun ev => negb (isEvict ev)) evs = true ->
  forall m d,
    (In (ESend ws m d) (trace (run evs (step w (SocketClose ws)))) ->
     In (ESend ws m d) (trace w))
    /\ (In (ESend ws m d) (trace (run evs (step w (SocketError ws)))) ->
        In (ESend ws m d) (trace w)).
Proof.
  intros Hlt Hev m d.
  destruct (connection_signal_facts w ws) as [Hclose Herror].
  split; intros Hin.
  - destruct Hclose as [Hnext [Hout Htrace]].
    apply Htrace. apply (run_keeps_out ws evs _ Hev); [lia|exact Hout|exact Hin].
  - destruct Herror as [Hnext [Hout Htrace]].
    apply Htrace. apply (run_keeps_out ws evs _ Hev); [lia|exact Hout|exact Hin].
Qed.

Lemma removed_session_gets_no_broadcast_witness :
  ~ In (ESend 1 (newAtomMessage (newAtom (calm (str "u") 7) (str "hi") JUndefined)) true)
       (trace (run [Fetch (calm (str "u") 7)
                          (appendRequest (JString (str "hi")) JUndefined)]
                   (step (run [Fetch (calm (str "s") 1) upgradeRequest] (freshWorld []))
                         (SocketClose 1)))).
Proof.
  intros Hin.
  apply (removed_session_gets_no_broadcast
           (run [Fetch (calm (str "s") 1) upgradeRequest] (freshWorld [])) 1
           [Fetch (calm (str "u") 7) (appendRequest (JString (str "hi")) JUndefined)])
    in Hin.
  - vm_compute in Hin. intuition discriminate.
  - vm_compute. lia.
  - reflexivity.
Defined.

(** X10: a session dropped because its send threw is back after the
    next reconstruction of the actor if the platform still reports its
    connection: the failed send removes it from the registry, and the
    constructor reinserts it, with the same session, from the attachment. *)
Theorem dropped_session_returns_on_activation e request w body c s author ws session stillOpen :
  reachable w ->
  req_json request = Some body ->
  getProp (str "content") body = Some (JString (c :: s)) ->
  getProp (str "author") body = Some author ->
  getFails e = false -> putFails e = false ->
  In (ws, session) (sessions w) ->
  sendFails e ws = true ->
  stillOpen ws = true ->
  let w1 := snd (handleCreateAtom e request w) in
  JsMap.get ws (sessions w1) = None
  /\ In (ws, session) (sessions (step w1 (Evict stillOpen))).
Proof.
  intros Hreach Hb Hc Ha Hg Hp Hin Hfail Hopen w1. subst w1.
  pose proof (reachable_Inv w Hreach) as HI.
  assert (Hne : c :: s <> []) by discriminate.
  rewrite (handleCreateAtom_created e request w Hb Hc Ha eq_refl Hne Hg Hp).
  cbn [snd]. split.
  - cbn [appended sessions]. now apply get_surviving_failed.
  - cbn [step construct passivate appended sessions webSockets].
    pose proof (NoDup_keys_filter (fun wa => stillOpen (fst wa)) (webSockets w)
                                  (inv_nodup HI)) as Hndf.
    rewrite (restoreSessions_attached _ Hndf). apply in_attached.
    apply filter_In. split; [exact (inv_registered HI _ _ Hin)|exact Hopen].
Qed.

Lemma dropped_session_returns_on_activation_witness :
  In (1, mkSession (str "s"))
     (sessions (step (snd (handleCreateAtom
                             (mkEnv (str "u") 7 false false (fun ws => Nat.eqb ws 1))
                             (appendRequest (JString (str "hi")) JUndefined)
                             (run [Fetch (calm (str "s") 1) upgradeRequest] (freshWorld []))))
                     (Evict (fun _ => true)))).
Proof.
  destruct (appendRequest_body (JString (str "hi")) JUndefined) as [Hb [Hc Ha]].
  assert (Hreach : reachable (run [Fetch (calm (str "s") 1) upgradeRequest]
                                  (freshWorld []))).
  { exists [], [Fetch (calm (str "s") 1) upgradeRequest]. reflexivity. }
  apply (dropped_session_returns_on_activation
           (mkEnv (str "u") 7 false false (fun ws => Nat.eqb ws 1))
           (appendRequest (JString (str "hi")) JUndefined)
           (run [Fetch (calm (str "s") 1) upgradeRequest] (freshWorld []))
           _ 104%N (str "i") JUndefined 1 (mkSession (str "s")) (fun _ => true)
           Hreach Hb Hc Ha eq_refl eq_refl).
  - vm_compute. now left.
  - reflexivity.
  - reflexivity.
Defined.

(* ===================================================================== *)
(** ** The Worker entry point *)
(* ===================================================================== *)

Lemma firstn_app_exact {A} (p x : list A) : firstn (List.length p) (p ++ x) = p.
Proof. induction p as [|c p IH]; cbn; [reflexivity|now rewrite IH]. Qed.

Lemma startsWith_app p x : JsLib.startsWith (p ++ x) p = true.
Proof. unfold JsLib.startsWith. rewrite firstn_app_exact. apply eqb_refl. Qed.

Lemma startsWith_inv s p :
  JsLib.startsWith s p = true -> s = p ++ skipn (List.length p) s.
Proof.
  unfold JsLib.startsWith. intros H. apply eqb_true_iff in H.
  rewrite <- H at 1. symmetry. apply firstn_skipn.
Qed.

Lemma skipn_app_exact {A} (p x : list A) : skipn (List.length p) (p ++ x) = x.
Proof. induction p as [|c p IH]; cbn; [reflexivity|exact IH]. Qed.

Lemma endsWith_app p suf : endsWith (p ++ suf) suf = true.
Proof.
  unfold endsWith. rewrite length_app.
  replace (List.length suf <=? List.length p + List.length suf)%nat with true
    by (symmetry; apply Nat.leb_le; lia).
  replace (List.length p + List.length suf - List.length suf) with (List.length p) by lia.
  rewrite skipn_app_exact. apply eqb_refl.
Qed.

Lemma endsWith_inv s suf :
  endsWith s suf = true -> exists p, s = p ++ suf.
Proof.
  unfold endsWith. destruct (List.length suf <=? List.length s)%nat; [|discriminate].
  intros H. apply eqb_true_iff in H.
  remember (List.length s - List.length suf) as n eqn:Hn. clear Hn.
  exists (firstn n s). rewrite <- H. symmetry. apply firstn_skipn.
Qed.

(** Two suffixes that end in different code units exclude each other. *)
Lemma endsWith_other_last p a b x y :
  x <> y -> endsWith (p ++ a ++ [x]) (b ++ [y]) = false.
Proof.
  intros Hxy. apply not_true_is_false. intros H.
  apply endsWith_inv in H. destruct H as [q Hq].
  apply (f_equal (@rev N)) in Hq.
  rewrite !app_assoc, !rev_app_distr in Hq. cbn in Hq. congruence.
Qed.

Lemma split_not_nil sep s : JsLib.split sep s <> [].
Proof.
  destruct s as [|c r]; cbn; [discriminate|].
  destruct (c =? sep)%N; [discriminate|].
  destruct (JsLib.split sep r); discriminate.
Qed.

Lemma split_sep sep s : JsLib.split sep (sep :: s) = [] :: JsLib.split sep s.
Proof. cbn. now rewrite N.eqb_refl. Qed.

Lemma split_piece sep a s :
  ~ In sep a -> JsLib.split sep (a ++ sep :: s) = a :: JsLib.split sep s.
Proof.
  induction a as [|c a IH]; intros Hn.
  - apply split_sep.
  - cbn [app JsLib.split].
    destruct (c =? sep)%N eqn:E.
    + apply N.eqb_eq in E. subst c. exfalso. apply Hn. now left.
    + rewrite IH; [reflexivity|]. intros Hin. apply Hn. now right.
Qed.

Lemma split_last sep a : ~ In sep a -> JsLib.split sep a = [a].
Proof.
  induction a as [|c a IH]; intros Hn; [reflexivity|].
  cbn [JsLib.split]. destruct (c =? sep)%N eqn:E.
  - apply N.eqb_eq in E. subst c. exfalso. apply Hn. now left.
  - rewrite IH; [reflexivity|]. intros Hin. apply Hn. now right.
Qed.

Lemma split_pieces_no_sep sep s :
  Forall (fun piece => ~ In sep piece) (JsLib.split sep s).
Proof.
  induction s as [|c r IH]; [repeat constructor; intros []|].
  cbn [JsLib.split]. destruct (c =? sep)%N eqn:E.
  - constructor; [intros []|exact IH].
  - apply N.eqb_neq in E.
    destruct (JsLib.split sep r) as [|piece pieces].
    + repeat constructor. intros [H|[]]. congruence.
    + inversion IH as [|x l Hpiece Hrest]; subst. constructor; [|exact Hrest].
      intros [H|H]; [congruence|contradiction].
Qed.

Lemma pathParts_nil s :
  Worker.pathParts s = [] <-> Forall (fun c => c = 47%N) s.
Proof.
  unfold Worker.pathParts. induction s as [|c r IH].
  - cbn. split; [constructor|reflexivity].
  - cbn [JsLib.split]. destruct (c =? 47)%N eqn:E.
    + apply N.eqb_eq in E. subst c. cbn [filter JsLib.nonEmpty]. rewrite IH. split.
      * intros H. now constructor.
      * intros H. now inversion H.
    + apply N.eqb_neq in E. split.
      * destruct (JsLib.split 47 r); cbn; discriminate.
      * intros H. inversion H; subst. contradiction.
Qed.

Lemma pathParts_api rest :
  Worker.pathParts (str "/api/liveblog/" ++ rest)
  = str "api" :: str "liveblog" :: Worker.pathParts rest.
Proof.
  unfold Worker.pathParts.
  change (str "/api/liveblog/" ++ rest)
    with (47%N :: (str "api" ++ 47%N :: (str "liveblog" ++ 47%N :: rest))).
  rewrite split_sep, split_piece, split_piece.
  - reflexivity.
  - vm_compute. intuition discriminate.
  - vm_compute. intuition discriminate.
Qed.

Lemma pathParts_pieces s :
  Forall (fun piece => piece <> [] /\ ~ In 47%N piece) (Worker.pathParts s).
Proof.
  unfold Worker.pathParts. apply Forall_forall. intros piece Hin.
  apply filter_In in Hin. destruct Hin as [Hin Hne]. split.
  - intros ->. discriminate.
  - exact (proj1 (Forall_forall _ _) (split_pieces_no_sep 47 s) piece Hin).
Qed.

Lemma fetch_never_blogIdRequired e r w :
  fst (fetch e r w) <> Returned Worker.blogIdRequired.
Proof.
  intros Heq.
  assert (Hbody : forall resp, fst (fetch e r w) = Returned resp ->
                    res_status resp <> 400%Z
                    \/ res_body resp <> Some (str "Blog ID is required")).
  { intros resp Hr.
    destruct (fetch_case e r w) as
      [H|H|H|H|H|Hm Hg H|H|H|c s a Hg Hp H|m Hs H|Hm Hp Hs H|Hs H];
      rewrite H in Hr; cbn [fst] in Hr; try discriminate;
      inversion Hr; subst resp;
      try (left; cbn; discriminate);
      right; vm_compute; discriminate. }
  destruct (Hbody _ Heq) as [H|H]; apply H; reflexivity.
Qed.

Lemma update_same ns name w : Worker.update ns name w name = w.
Proof. unfold Worker.update. now rewrite eqb_refl. Qed.

Lemma update_other ns name w other :
  other <> name -> Worker.update ns name w other = ns other.
Proof.
  intros Hne. unfold Worker.update. apply eqb_false_iff in Hne. now rewrite Hne.
Qed.

Lemma delivered_without_upgrade r : req_upgrade r = None -> delivered r = r.
Proof.
  intros H. unfold delivered, upgradeHeaderOk. now rewrite H.
Qed.

Lemma delivered_upgrade r :
  upgradeHeaderOk r = true ->
  delivered r = mkRequest (req_pathname r) (str "GET") (req_upgrade r) (req_json r).
Proof. intros H. unfold delivered. now rewrite H. Qed.

(** X11: under [/api/liveblog/] the Worker answers 400 [Invalid
    LiveBlog URL], touching no room, exactly when nothing but slashes
    follows the prefix; otherwise it hands the request to the room named by
    the first segment after the prefix, a non-empty name without slash, and
    only that room can change: a request without [Upgrade] header reaches
    the instance as it was sent, one with [Upgrade: websocket] as the GET
    handshake.  The [Blog ID is required] answer is never given. *)
Theorem worker_needs_a_blog_segment openNext e r ns rest :
  req_pathname r = str "/api/liveblog/" ++ rest ->
  (Forall (fun c => c = 47%N) rest ->
     Worker.fetch openNext e r ns = (Returned Worker.invalidUrl, ns))
  /\ (~ Forall (fun c => c = 47%N) rest ->
      exists blogId others,
        Worker.pathParts rest = blogId :: others
        /\ blogId <> [] /\ ~ In 47%N blogId
        /\ (forall other, other <> blogId ->
              snd (Worker.fetch openNext e r ns) other = ns other)
        /\ (req_upgrade r = None ->
              Worker.fetch openNext e r ns
              = servedBy ns blogId (fetch e r (ns blogId)))
        /\ (upgradeHeaderOk r = true ->
              Worker.fetch openNext e r ns
              = servedBy ns blogId
                  (fetch e (mkRequest (req_pathname r) (str "GET")
                                      (req_upgrade r) (req_json r))
                         (ns blogId))))
  /\ fst (Worker.fetch openNext e r ns) <> Returned Worker.blogIdRequired.
Proof.
  intros Hpath.
  assert (Hfetch : Worker.fetch openNext e r ns = Worker.handleLiveBlogRequest e r ns).
  { unfold Worker.fetch. now rewrite Hpath, startsWith_app. }
  rewrite Hfetch. unfold Worker.handleLiveBlogRequest.
  rewrite Hpath, pathParts_api.
  destruct (Worker.pathParts rest) as [|blogId others] eqn:Hparts.
  - cbn [List.length Nat.ltb Nat.leb]. split; [reflexivity|]. split.
    + intros Hn. exfalso. apply Hn. now apply pathParts_nil.
    + cbn. discriminate.
  - pose proof (pathParts_pieces rest) as Hpieces. rewrite Hparts in Hpieces.
    inversion Hpieces as [|x l [Hne Hslash] _]; subst.
    assert (Hnon : JsLib.nonEmpty blogId = true)
      by (destruct blogId; [congruence|reflexivity]).
    cbn [List.length Nat.ltb Nat.leb nth]. rewrite Hnon. cbn [negb].
    split; [|split].
    + intros Hall. apply pathParts_nil in Hall. congruence.
    + intros _. exists blogId, others.
      split; [reflexivity|]. split; [exact Hne|]. split; [exact Hslash|].
      split; [|split].
      * intros other Hother. cbn [snd]. now apply update_other.
      * intros Hnone. unfold stubFetch. now rewrite (delivered_without_upgrade r Hnone).
      * intros Hu. unfold stubFetch. rewrite (delivered_upgrade r Hu), ?Hpath.
        reflexivity.
    + cbn [fst]. unfold stubFetch. apply fetch_never_blogIdRequired.
Qed.

Lemma worker_needs_a_blog_segment_witness :
  Worker.fetch (fun _ => None) (calm [] 0)
    (mkRequest (str "/api/liveblog///") (str "GET") None None)
    (fun name => freshWorld name)
  = (Returned Worker.invalidUrl, fun name => freshWorld name).
Proof.
  apply (worker_needs_a_blog_segment (fun _ => None) (calm [] 0)
           (mkRequest (str "/api/liveblog///") (str "GET") None None)
           (fun name => freshWorld name) (str "//") eq_refl).
  repeat constructor.
Defined.

Lemma fetch_on_atoms_get e r w p :
  req_pathname r = p ++ str "/atoms" -> req_method r = str "GET" ->
  fetch e r w = handleGetAtoms e w.
Proof.
  intros Hp Hm. unfold fetch. rewrite Hp, Hm.
  change (str "/atoms") with (str "/atom" ++ [115%N]) at 1.
  change (str "/websocket") with (str "/websocke" ++ [116%N]).
  rewrite (endsWith_other_last p (str "/atom") (str "/websocke")) by discriminate.
  change (str "/atom" ++ [115%N]) with (str "/atoms").
  now rewrite endsWith_app, eqb_refl.
Qed.

Lemma fetch_on_atoms_post e r w p :
  req_pathname r = p ++ str "/atoms" -> req_method r = str "POST" ->
  fetch e r w = handleCreateAtom e r w.
Proof.
  intros Hp Hm. unfold fetch. rewrite Hp, Hm.
  change (str "/atoms") with (str "/atom" ++ [115%N]) at 1.
  change (str "/websocket") with (str "/websocke" ++ [116%N]).
  rewrite (endsWith_other_last p (str "/atom") (str "/websocke")) by discriminate.
  change (str "/atom" ++ [115%N]) with (str "/atoms").
  rewrite endsWith_app, eqb_refl.
  replace (JsStr.eqb (str "POST") (str "GET")) with false by (vm_compute; reflexivity).
  reflexivity.
Qed.

Lemma fetch_on_metadata_get e r w p :
  req_pathname r = p ++ str "/metadata" -> req_method r = str "GET" ->
  fetch e r w = handleGetMetadata e w.
Proof.
  intros Hp Hm. unfold fetch. rewrite Hp, Hm.
  change (str "/metadata") with (str "/metadat" ++ [97%N]) at 1 2 3.
  change (str "/websocket") with (str "/websocke" ++ [116%N]).
  change (str "/atoms") with (str "/atom" ++ [115%N]).
  rewrite (endsWith_other_last p (str "/metadat") (str "/websocke")) by discriminate.
  rewrite (endsWith_other_last p (str "/metadat") (str "/atom")) by discriminate.
  change (str "/metadat" ++ [97%N]) with (str "/metadata").
  now rewrite endsWith_app, eqb_refl.
Qed.

Lemma fetch_on_websocket e r w p :
  req_pathname r = p ++ str "/websocket" ->
  fetch e r w = handleWebSocketUpgrade e r w.
Proof.
  intros Hp. unfold fetch. now rewrite Hp, endsWith_app.
Qed.

Lemma worker_serves_named_room openNext e r ns name seg :
  name <> [] -> ~ In 47%N name -> seg <> [] -> ~ In 47%N seg ->
  req_pathname r = apiPath name (47%N :: seg) ->
  Worker.fetch openNext e r ns = servedBy ns name (stubFetch e r (ns name)).
Proof.
  intros Hname Hslash Hseg Hsegs Hpath.
  unfold Worker.fetch, Worker.handleLiveBlogRequest, apiPath in *.
  rewrite Hpath, startsWith_app, pathParts_api.
  unfold Worker.pathParts. rewrite (split_piece 47 name seg Hslash), (split_last 47 seg Hsegs).
  cbn [filter].
  replace (JsLib.nonEmpty name) with true by (destruct name; [congruence|reflexivity]).
  replace (JsLib.nonEmpty seg) with true by (destruct seg; [congruence|reflexivity]).
  cbn [List.length Nat.ltb Nat.leb nth].
  replace (JsLib.nonEmpty name) with true by (destruct name; [congruence|reflexivity]).
  reflexivity.
Qed.

(** X12: for a blog name that is not empty and has no slash, the Worker
    hands [/api/liveblog/{name}/atoms], [.../metadata] and [.../websocket]
    to the room of that name.  A request without [Upgrade] header is answered
    there by the matching handler: listing, creation, metadata, and on the
    WebSocket path the 426 refusal.  A request on the WebSocket path that
    carries [Upgrade: websocket] reaches the instance as the GET handshake
    and is accepted with 101, whatever its method.  Every other room of the
    namespace is left as it was. *)
Theorem worker_routes_to_the_named_room openNext e name method upgrade json ns :
  name <> [] -> ~ In 47%N name ->
  let request action := mkRequest (apiPath name action) method upgrade json in
  let via action := Worker.fetch openNext e (request action) ns in
  (upgrade = None -> method = str "GET" ->
     via (str "/atoms") = servedBy ns name (handleGetAtoms e (ns name)))
  /\ (upgrade = None -> method = str "POST" ->
     via (str "/atoms")
     = servedBy ns name (handleCreateAtom e (request (str "/atoms")) (ns name)))
  /\ (upgrade = None -> method = str "GET" ->
     via (str "/metadata") = servedBy ns name (handleGetMetadata e (ns name)))
  /\ (upgrade = None ->
     via (str "/websocket")
     = servedBy ns name
         (Returned (mkResponse 426 (Some (str "Expected Upgrade: websocket")) [] None),
          ns name))
  /\ (upgrade = Some (str "websocket") ->
     via (str "/websocket")
     = servedBy ns name
         (Returned (mkResponse 101 None [] (Some (nextSocket (ns name)))),
          upgraded e (ns name)))
  /\ (forall action other,
        In action [str "/atoms"; str "/metadata"; str "/websocket"] ->
        other <> name -> snd (via action) other = ns other).
Proof.
  intros Hname Hslash request via.
  assert (Hserved : forall seg,
             In seg [str "atoms"; str "metadata"; str "websocket"] ->
             via (47%N :: seg)
             = servedBy ns name (stubFetch e (request (47%N :: seg)) (ns name))).
  { intros seg Hin. subst via request. cbv beta.
    apply (worker_serves_named_room openNext e _ ns name seg Hname Hslash);
      try reflexivity;
      destruct Hin as [<-|[<-|[<-|[]]]];
      try discriminate; vm_compute; intuition discriminate. }
  assert (Hpath : forall action m u,
             req_pathname (mkRequest (apiPath name action) m u json)
             = (str "/api/liveblog/" ++ name) ++ action).
  { intros action m u. cbn [req_pathname]. unfold apiPath. now rewrite app_assoc. }
  assert (Hsame : upgrade = None ->
                  forall action w, stubFetch e (request action) w
                                   = fetch e (request action) w).
  { intros Hu action w. unfold stubFetch.
    rewrite (delivered_without_upgrade (request action)); [reflexivity|exact Hu]. }
  split; [|split; [|split; [|split; [|split]]]].
  - intros Hu Hm. change (str "/atoms") with (47%N :: str "atoms") at 1.
    rewrite Hserved by (cbn; tauto). f_equal. rewrite (Hsame Hu).
    apply (fetch_on_atoms_get e _ _ _ (Hpath (str "/atoms") method upgrade) Hm).
  - intros Hu Hm. change (str "/atoms") with (47%N :: str "atoms") at 1.
    rewrite Hserved by (cbn; tauto). f_equal. rewrite (Hsame Hu).
    apply (fetch_on_atoms_post e _ _ _ (Hpath (str "/atoms") method upgrade) Hm).
  - intros Hu Hm. change (str "/metadata") with (47%N :: str "metadata") at 1.
    rewrite Hserved by (cbn; tauto). f_equal. rewrite (Hsame Hu).
    apply (fetch_on_metadata_get e _ _ _ (Hpath (str "/metadata") method upgrade) Hm).
  - intros Hu. change (str "/websocket") with (47%N :: str "websocket") at 1.
    rewrite Hserved by (cbn; tauto). f_equal. rewrite (Hsame Hu).
    rewrite (fetch_on_websocket e _ _ _ (Hpath (str "/websocket") method upgrade)).
    apply handleWebSocketUpgrade_426. subst request. cbv beta.
    unfold upgradeHeaderOk. cbn [req_upgrade]. now rewrite Hu.
  - intros Hu. change (str "/websocket") with (47%N :: str "websocket") at 1.
    rewrite Hserved by (cbn; tauto). f_equal. unfold stubFetch.
    assert (Hok : upgradeHeaderOk (request (47%N :: str "websocket")) = true).
    { subst request. cbv beta. unfold upgradeHeaderOk. cbn [req_upgrade].
      rewrite Hu. apply eqb_refl. }
    rewrite (delivered_upgrade _ Hok). subst request. cbv beta.
    cbn [req_pathname req_upgrade req_json].
    rewrite (fetch_on_websocket e _ _ _
               (Hpath (str "/websocket") (str "GET") upgrade)).
    apply handleWebSocketUpgrade_101; [exact Hok|reflexivity].
  - intros action other Hin Hother.
    assert (Hseg : exists seg, action = 47%N :: seg
                               /\ In seg [str "atoms"; str "metadata"; str "websocket"]).
    { destruct Hin as [<-|[<-|[<-|[]]]]; eexists; (split; [reflexivity|]); cbn; tauto. }
    destruct Hseg as [seg [-> Hin']]. rewrite (Hserved seg Hin').
    cbn [servedBy snd]. now apply update_other.
Qed.

Lemma worker_routes_to_the_named_room_witness :
  Worker.fetch (fun _ => None) (calm (str "s") 1)
    (mkRequest (apiPath (str "breaking-news") (str "/websocket")) (str "POST")
               (Some (str "websocket")) None)
    (fun name => freshWorld name)
  = servedBy (fun name => freshWorld name) (str "breaking-news")
             (Returned (mkResponse 101 None [] (Some 0)),
              upgraded (calm (str "s") 1) (freshWorld (str "breaking-news"))).
Proof.
  refine (proj1 (proj2 (proj2 (proj2 (proj2
            (worker_routes_to_the_named_room (fun _ => None) (calm (str "s") 1)
               (str "breaking-news") (str "POST") (Some (str "websocket")) None
               (fun name => freshWorld name) _ _))))) eq_refl).
  - discriminate.
  - vm_compute. intuition discriminate.
Defined.

(* ===================================================================== *)
(** ** The Next.js API routes *)
(* ===================================================================== *)

(** X13: without the Durable Object binding the [POST] route answers
    200 with a mock atom for every body it can destructure: it neither
    validates nor trims the content, which it echoes as received, where the
    instance refuses the same request with 400 when the content is not a
    non-empty string; a body that is not JSON or is [null] gets 500.  No
    room is involved. *)
Theorem dev_post_does_not_validate e callThrows blogId request :
  (forall body content author,
      req_json request = Some body ->
      getProp (str "content") body = Some content ->
      getProp (str "author") body = Some author ->
      AtomsRoute.POST e callThrows blogId request None
      = (Returned (nextJson 200
                     (JObject [(str "success", JBool true);
                               (str "atom", AtomsRoute.mockAtom e content author);
                               (str "_devMode", JBool true);
                               (str "_message", JString mockMessage)])),
         None)
      /\ getProp (str "content") (AtomsRoute.mockAtom e content author) = Some content
      /\ (validContent content = false ->
          forall w, fst (handleCreateAtom e request w) = Returned contentRequired))
  /\ (req_json request = None \/ req_json request = Some JNull ->
      AtomsRoute.POST e callThrows blogId request None
      = (Returned AtomsRoute.failedToCreateJson, None)
      /\ res_status AtomsRoute.failedToCreateJson = 500%Z).
Proof.
  split.
  - intros body content author Hb Hc Ha. split; [|split].
    + unfold AtomsRoute.POST, AtomsRoute.devPOST. now rewrite Hb, Hc, Ha.
    + unfold AtomsRoute.mockAtom. cbn [getProp lookup].
      replace (JsStr.eqb (str "content") (str "id")) with false
        by (vm_compute; reflexivity).
      now rewrite eqb_refl.
    + intros Hv w. now rewrite (handleCreateAtom_invalid e request w Hb Hc Ha Hv).
  - intros [H|H]; (split; [|reflexivity]);
      unfold AtomsRoute.POST, AtomsRoute.devPOST; rewrite H; reflexivity.
Qed.

Lemma dev_post_does_not_validate_witness :
  fst (handleCreateAtom (calm (str "u") 7) (appendRequest (JString []) JUndefined)
         (freshWorld []))
  = Returned contentRequired
  /\ AtomsRoute.POST (calm (str "u") 7) false (str "room")
       (appendRequest (JString []) JUndefined) None
     = (Returned (nextJson 200
                    (JObject [(str "success", JBool true);
                              (str "atom",
                               AtomsRoute.mockAtom (calm (str "u") 7) (JString []) JUndefined);
                              (str "_devMode", JBool true);
                              (str "_message", JString mockMessage)])),
        None).
Proof.
  destruct (appendRequest_body (JString []) JUndefined) as [Hb [Hc Ha]].
  destruct (proj1 (dev_post_does_not_validate (calm (str "u") 7) false (str "room")
                     (appendRequest (JString []) JUndefined))
              _ _ _ Hb Hc Ha) as [Hpost [_ Hrefused]].
  split; [apply Hrefused; reflexivity|exact Hpost].
Defined.

(** X14: the WebSocket route reaches the instance only with the binding
    present and the header [Upgrade: websocket]: any other request is
    answered by the route itself, 426 for an upgrade without binding and a
    200 JSON explanation otherwise, and leaves the namespace alone.  A
    forwarded upgrade is a GET on a path ending in [/websocket] with the
    right header, so the instance always accepts it: 101 with the client
    socket, never 426 or 400. *)
Theorem websocket_route_forwards_only_upgrades e blogId request binding :
  (WebsocketRoute.isUpgrade request = false ->
     forall callThrows,
     exists resp,
       WebsocketRoute.GET e callThrows blogId request binding = (Returned resp, binding)
       /\ res_status resp = 200%Z)
  /\ (WebsocketRoute.isUpgrade request = true ->
      forall callThrows,
      WebsocketRoute.GET e callThrows blogId request None
      = (Returned (mkResponse 426 (Some workersRuntimeMessage) [] None), None))
  /\ (WebsocketRoute.isUpgrade request = true ->
      req_method request = str "GET" ->
      endsWith (req_pathname request) (str "/websocket") = true ->
      forall ns,
      WebsocketRoute.GET e false blogId request (Some ns)
      = (Returned (mkResponse 101 None [] (Some (nextSocket (ns blogId)))),
         Some (Worker.update ns blogId (upgraded e (ns blogId))))).
Proof.
  split; [|split].
  - intros Hu callThrows. unfold WebsocketRoute.GET. rewrite Hu.
    destruct binding; eexists; split; reflexivity.
  - intros Hu callThrows. unfold WebsocketRoute.GET. now rewrite Hu.
  - intros Hu Hm Hpath ns. unfold WebsocketRoute.GET, forward. rewrite Hu.
    assert (Hdel : deliverable request) by (intros _; exact Hm).
    unfold stubFetch. rewrite (deliverable_delivered request Hdel).
    unfold fetch. rewrite Hpath.
    now rewrite (handleWebSocketUpgrade_101 e request (ns blogId) Hu Hm).
Qed.

Lemma websocket_route_forwards_only_upgrades_witness :
  WebsocketRoute.GET (calm (str "s") 1) false (str "room") upgradeRequest
    (Some (fun name => freshWorld name))
  = (Returned (mkResponse 101 None [] (Some 0)),
     Some (Worker.update (fun name => freshWorld name) (str "room")
             (upgraded (calm (str "s") 1) (freshWorld (str "room"))))).
Proof.
  apply (websocket_route_forwards_only_upgrades (calm (str "s") 1) (str "room")
           upgradeRequest None).
  - reflexivity.
  - reflexivity.
  - vm_compute. reflexivity.
Defined.

(* ===================================================================== *)
(** ** The reader's store *)
(* ===================================================================== *)

Lemma onmessage_new_atom atom st :
  Store.onmessage (Some (newAtomData atom)) st = Store.addAtom atom st.
Proof.
  unfold Store.onmessage, newAtomData. cbn [getProp lookup].
  rewrite eqb_refl. cbn [JsLib.isLiteral]. rewrite eqb_refl.
  replace (JsStr.eqb (str "atom") (str "type")) with false by (vm_compute; reflexivity).
  now rewrite eqb_refl.
Qed.

Lemma reversedAtoms_atomsData log : reversedAtoms (atomsData log) = Some (rev log).
Proof.
  unfold reversedAtoms, atomsData. cbn [getProp lookup]. now rewrite eqb_refl.
Qed.

Lemma receive_new_atoms news : forall st,
  Store.receive (map (fun a => Some (newAtomData a)) news) st
  = Store.mkState (rev news ++ Store.atoms st) (Store.isConnected st)
                  (Store.connectionStatus st) (Store.wsRef st).
Proof.
  induction news as [|a news IH]; intros st.
  - now destruct st.
  - cbn [map Store.receive fold_left].
    fold (Store.receive (map (fun a => Some (newAtomData a)) news)
                        (Store.onmessage (Some (newAtomData a)) st)).
    rewrite onmessage_new_atom, IH. cbn [Store.addAtom Store.atoms Store.isConnected
      Store.connectionStatus Store.wsRef rev].
    now rewrite <- app_assoc.
Qed.

(** X15: live updates agree with a refetch.  After loading the listing
    of a log and then receiving, in order, the wire messages of the atoms
    appended since, the store shows the whole log newest first, exactly what
    loading the listing of the extended log gives; connection state is not
    touched. *)
Theorem live_updates_agree_with_refetch st log news :
  let loaded := Store.fetchInitialAtoms (Http true (Some (atomsData log))) st in
  let live := Store.receive (map (fun a => Some (newAtomData a)) news) loaded in
  Store.atoms live = rev (log ++ news)
  /\ live = Store.fetchInitialAtoms (Http true (Some (atomsData (log ++ news)))) st.
Proof.
  cbv zeta. unfold Store.fetchInitialAtoms. rewrite !reversedAtoms_atomsData.
  rewrite receive_new_atoms. cbn [Store.setAtoms Store.atoms Store.isConnected
    Store.connectionStatus Store.wsRef].
  rewrite rev_app_distr. split; reflexivity.
Qed.

(** X16: what the store cannot use leaves it as it is: a message that
    is not JSON, is [null], or whose [type] is not the string [new_atom];
    a listing request that fails, is answered with an error status, or has a
    body that is not JSON, is [null], or whose [atoms] is a truthy value
    other than an array.  A body without [atoms], by contrast, empties the
    list. *)
Theorem store_ignores_what_it_cannot_use st :
  Store.onmessage None st = st
  /\ Store.onmessage (Some JNull) st = st
  /\ (forall message type,
        getProp (str "type") message = Some type ->
        JsLib.isLiteral type (str "new_atom") = false ->
        Store.onmessage (Some message) st = st)
  /\ Store.fetchInitialAtoms NetworkError st = st
  /\ (forall json, Store.fetchInitialAtoms (Http false json) st = st)
  /\ Store.fetchInitialAtoms (Http true None) st = st
  /\ Store.fetchInitialAtoms (Http true (Some JNull)) st = st
  /\ (forall data v,
        getProp (str "atoms") data = Some v -> truthy v = true ->
        (forall l, v <> JArray l) ->
        Store.fetchInitialAtoms (Http true (Some data)) st = st)
  /\ (forall data v,
        getProp (str "atoms") data = Some v -> truthy v = false ->
        Store.fetchInitialAtoms (Http true (Some data)) st = Store.setAtoms [] st).
Proof.
  repeat split.
  - intros message type Ht Hl. unfold Store.onmessage. now rewrite Ht, Hl.
  - intros data v Hv Ht Hna. unfold Store.fetchInitialAtoms, reversedAtoms, js_or.
    rewrite Hv, Ht. destruct v; try reflexivity. exfalso. now apply (Hna elems).
  - intros data v Hv Ht. unfold Store.fetchInitialAtoms, reversedAtoms, js_or.
    now rewrite Hv, Ht.
Qed.

Lemma store_ignores_what_it_cannot_use_witness :
  Store.onmessage (Some (JObject [(str "type", JString (str "ping"))])) Store.initial
  = Store.initial.
Proof.
  destruct (store_ignores_what_it_cannot_use Store.initial) as [_ [_ [Hother _]]].
  apply (Hother _ (JString (str "ping"))).
  - cbn [getProp lookup]. now rewrite eqb_refl.
  - vm_compute. reflexivity.
Defined.

(* ===================================================================== *)
(** ** The author page *)
(* ===================================================================== *)

Lemma nonEmpty_cons s : JsLib.nonEmpty s = true -> exists c r, s = c :: r.
Proof. destruct s as [|c r]; [discriminate|]. intros _. now exists c, r. Qed.

Lemma publishedAuthor_truthy author : truthy (JString (publishedAuthor author)) = true.
Proof.
  unfold publishedAuthor. destruct (JsLib.nonEmpty (trim author)) eqn:E.
  - destruct (nonEmpty_cons _ E) as [c [r ->]]. reflexivity.
  - reflexivity.
Qed.

(** X17: the form refuses a content that is empty once trimmed and
    sends nothing; what it sends always passes the validation of the
    instance, which stores the content and the author exactly as sent
    (trimming again changes nothing, and the author is never defaulted a
    second time); with the storage failing the answer is 500, never 400. *)
Theorem published_post_passes_validation content author :
  (AuthorPage.publishBody content author = None <-> trim content = [])
  /\ forall body e request w,
       AuthorPage.publishBody content author = Some body ->
       req_json request = Some body ->
       statusOf (handleCreateAtom e request w) <> Some 400%Z
       /\ (getFails e = false -> putFails e = false ->
           fst (handleCreateAtom e request w)
           = Returned (createdResponse
                         (mkAtom (randomUUID e) (trim content) (now e)
                                 (JString (publishedAuthor author))))
           /\ storedAtoms (snd (handleCreateAtom e request w))
              = storedAtoms w ++ [mkAtom (randomUUID e) (trim content) (now e)
                                         (JString (publishedAuthor author))]).
Proof.
  split.
  - unfold AuthorPage.publishBody. destruct (trim content) as [|c r]; cbn; split;
      congruence.
  - intros body e request w Hpub Hb.
    unfold AuthorPage.publishBody in Hpub.
    destruct (JsLib.nonEmpty (trim content)) eqn:Hne; cbn [negb] in Hpub; [|discriminate].
    fold (publishedAuthor author) in Hpub. inversion Hpub; subst body. clear Hpub.
    destruct (nonEmpty_cons _ Hne) as [c [r Hcr]].
    assert (Hc : getProp (str "content")
                   (JObject [(str "content", JString (trim content));
                             (str "author", JString (publishedAuthor author))])
                 = Some (JString (trim content))).
    { cbn [getProp lookup]. now rewrite eqb_refl. }
    assert (Ha : getProp (str "author")
                   (JObject [(str "content", JString (trim content));
                             (str "author", JString (publishedAuthor author))])
                 = Some (JString (publishedAuthor author))).
    { cbn [getProp lookup].
      replace (JsStr.eqb (str "author") (str "content")) with false
        by (vm_compute; reflexivity).
      now rewrite eqb_refl. }
    assert (Hnn : trim content <> []) by (rewrite Hcr; discriminate).
    assert (Hatom : newAtom e (trim content) (JString (publishedAuthor author))
                    = mkAtom (randomUUID e) (trim content) (now e)
                             (JString (publishedAuthor author))).
    { unfold newAtom, js_or. now rewrite trim_idem, publishedAuthor_truthy. }
    split.
    + destruct (getFails e) eqn:Hg; [|destruct (putFails e) eqn:Hp].
      * rewrite (handleCreateAtom_storage_failure e request w Hb Hc Ha eq_refl Hnn
                   (or_introl Hg)). cbv. discriminate.
      * rewrite (handleCreateAtom_storage_failure e request w Hb Hc Ha eq_refl Hnn
                   (or_intror Hp)). cbv. discriminate.
      * rewrite (handleCreateAtom_created e request w Hb Hc Ha eq_refl Hnn Hg Hp).
        cbn [statusOf fst createdResponse res_status]. discriminate.
    + intros Hg Hp.
      rewrite (handleCreateAtom_created e request w Hb Hc Ha eq_refl Hnn Hg Hp).
      cbn [fst snd]. rewrite Hatom. split; reflexivity.
Qed.

Lemma published_post_passes_validation_witness :
  fst (handleCreateAtom (calm (str "u") 7)
         (mkRequest (str "/api/liveblog/room/atoms") (str "POST") None
                    (AuthorPage.publishBody (str " Goal! ") (str "  ")))
         (freshWorld []))
  = Returned (createdResponse
                (mkAtom (str "u") (str "Goal!") 7 (JString (str "Anonymous")))).
Proof.
  destruct (proj2 (published_post_passes_validation (str " Goal! ") (str "  "))
              _ (calm (str "u") 7)
              (mkRequest (str "/api/liveblog/room/atoms") (str "POST") None
                         (AuthorPage.publishBody (str " Goal! ") (str "  ")))
              (freshWorld []) eq_refl eq_refl) as [_ Hok].
  destruct (Hok eq_refl eq_refl) as [Hresp _]. exact Hresp.
Defined.

Lemma published_firstn {A} (a : A) (l : list A) :
  a :: firstn 4 (firstn 5 l) = firstn 5 (a :: l).
Proof. rewrite firstn_firstn. reflexivity. Qed.

Lemma publish_all news : forall log,
  fold_left (fun recent atom => AuthorPage.published atom recent) news
            (JsLib.slice0 5 (rev log))
  = JsLib.slice0 5 (rev (log ++ news)).
Proof.
  induction news as [|a news IH]; intros log.
  - now rewrite app_nil_r.
  - cbn [fold_left]. unfold AuthorPage.published at 2. unfold JsLib.slice0 at 2 3.
    rewrite published_firstn.
    replace (a :: rev log) with (rev (log ++ [a])) by (rewrite rev_app_distr; reflexivity).
    fold (@JsLib.slice0 JsValue 5 (rev (log ++ [a]))).
    rewrite IH, <- app_assoc. reflexivity.
Qed.

(** X18: the list of recent atoms on the author page is the newest five.
    After loading the listing of a log and publishing further atoms one by
    one, it holds the last five atoms of the extended log, newest first, and
    never more than five entries. *)
Theorem recent_atoms_are_the_newest_five recent log news :
  let loaded := AuthorPage.fetchRecentAtoms (Http true (Some (atomsData log))) recent in
  let shown := fold_left (fun r atom => AuthorPage.published atom r) news loaded in
  shown = firstn 5 (rev (log ++ news))
  /\ List.length shown <= 5.
Proof.
  cbv zeta. unfold AuthorPage.fetchRecentAtoms. rewrite reversedAtoms_atomsData.
  rewrite publish_all. unfold JsLib.slice0. split; [reflexivity|].
  apply firstn_le_length.
Qed.

(* ===================================================================== *)
(** ** Identifiers and timestamps of the log *)
(* ===================================================================== *)

Lemma step_log_env w ev :
  storedAtoms (step w ev) = storedAtoms w
  \/ exists e r atom,
       ev = Fetch e r
       /\ atom_id atom = randomUUID e /\ atom_timestamp atom = now e
       /\ storedAtoms (step w ev) = storedAtoms w ++ [atom].
Proof.
  destruct ev as [e r|ws|ws|ws|stillOpen]; cbn [step].
  - destruct (fetch_case e r w) as
      [H|H|H|H|H|Hm Hg H|H|H|c s a Hg Hp H|m Hs H|Hm Hp Hs H|Hs H];
      rewrite H; cbn [snd]; try (now left).
    right. exists e, r, (newAtom e (c :: s) a). repeat split.
  - now left.
  - left. unfold webSocketClose. cbv [bind getWorld].
    destruct (JsMap.get ws (sessions w)); reflexivity.
  - now left.
  - now left.
Qed.

Lemma run_ids_distinct evs : forall w,
  NoDup (uuidsOf evs) ->
  NoDup (map atom_id (storedAtoms w)) ->
  (forall a, In a (storedAtoms w) -> ~ In (atom_id a) (uuidsOf evs)) ->
  NoDup (map atom_id (storedAtoms (run evs w))).
Proof.
  induction evs as [|ev evs IH]; intros w Hu Hnd Hfresh; [exact Hnd|].
  cbn [run fold_left]. fold (run evs (step w ev)).
  destruct (step_log_env w ev) as [Hsame | [e [r [atom [-> [Hid [_ Hext]]]]]]].
  - assert (Hsub : forall x, In x (uuidsOf evs) -> In x (uuidsOf (ev :: evs))).
    { intros x Hx. unfold uuidsOf. cbn [flat_map]. apply in_or_app. now right. }
    apply IH.
    + unfold uuidsOf in Hu. cbn [flat_map] in Hu.
      apply NoDup_app_remove_l in Hu. exact Hu.
    + now rewrite Hsame.
    + rewrite Hsame. intros a Ha Hin. apply (Hfresh a Ha). now apply Hsub.
  - unfold uuidsOf in Hu, Hfresh. cbn [flat_map app] in Hu, Hfresh.
    fold (uuidsOf evs) in Hu, Hfresh. inversion Hu as [|x l Hx Hrest]; subst.
    apply IH.
    + exact Hrest.
    + rewrite Hext, map_app. cbn [map].
      apply NoDup_app; [exact Hnd|repeat constructor; intros []|].
      intros k Hk [Hk'|[]]. subst k. apply in_map_iff in Hk.
      destruct Hk as [a [Ha Hin]]. apply (Hfresh a Hin). left. congruence.
    + rewrite Hext. intros a Ha Hin. apply in_app_or in Ha.
      destruct Ha as [Ha|[Ha|[]]].
      * apply (Hfresh a Ha). now right.
      * subst a. rewrite Hid in Hin. contradiction.
Qed.

(** X19: as long as the platform never hands out the same UUID twice,
    no two atoms of the log share an id, whatever the room went through. *)
Theorem atom_ids_are_distinct id evs :
  NoDup (uuidsOf evs) ->
  NoDup (map atom_id (storedAtoms (run evs (freshWorld id)))).
Proof.
  intros Hu. apply run_ids_distinct; [exact Hu|constructor|intros a []].
Qed.

Lemma atom_ids_are_distinct_witness :
  NoDup (map atom_id
           (storedAtoms
              (run [Fetch (calm (str "u1") 10)
                          (appendRequest (JString (str "a")) JUndefined);
                    Fetch (calm (str "u2") 20)
                          (appendRequest (JString (str "b")) JUndefined)]
                   (freshWorld [])))).
Proof.
  apply atom_ids_are_distinct.
  vm_compute. repeat constructor; cbn; intuition discriminate.
Defined.

Lemma StronglySorted_snoc (l : list Z) y :
  StronglySorted Z.le l -> (forall x, In x l -> (x <= y)%Z) ->
  StronglySorted Z.le (l ++ [y]).
Proof.
  induction l as [|x l IH]; intros Hs Hle.
  - repeat constructor.
  - inversion Hs as [|x' l' Hl Hx]; subst. cbn [app]. constructor.
    + apply IH; [exact Hl|]. intros z Hz. apply Hle. now right.
    + apply Forall_app. split; [exact Hx|]. repeat constructor. apply Hle. now left.
Qed.

Lemma run_chronological evs : forall w,
  StronglySorted Z.le (clockOf evs) ->
  StronglySorted Z.le (map atom_timestamp (storedAtoms w)) ->
  (forall a t, In a (storedAtoms w) -> In t (clockOf evs) -> (atom_timestamp a <= t)%Z) ->
  StronglySorted Z.le (map atom_timestamp (storedAtoms (run evs w))).
Proof.
  induction evs as [|ev evs IH]; intros w Hc Hs Hle; [exact Hs|].
  cbn [run fold_left]. fold (run evs (step w ev)).
  destruct (step_log_env w ev) as [Hsame | [e [r [atom [-> [_ [Hts Hext]]]]]]].
  - assert (Hsub : forall x, In x (clockOf evs) -> In x (clockOf (ev :: evs))).
    { intros x Hx. unfold clockOf. cbn [flat_map]. apply in_or_app. now right. }
    apply IH.
    + unfold clockOf in Hc. cbn [flat_map] in Hc.
      destruct ev; cbn [app] in Hc; try exact Hc. now inversion Hc.
    + now rewrite Hsame.
    + rewrite Hsame. intros a t Ha Ht. apply (Hle a t Ha). now apply Hsub.
  - unfold clockOf in Hc, Hle. cbn [flat_map app] in Hc, Hle.
    fold (clockOf evs) in Hc, Hle. inversion Hc as [|x l Hrest Hhead]; subst.
    apply IH.
    + exact Hrest.
    + rewrite Hext, map_app. cbn [map]. apply StronglySorted_snoc; [exact Hs|].
      intros x Hx. apply in_map_iff in Hx. destruct Hx as [a [<- Ha]].
      rewrite Hts. apply (Hle a (now e) Ha). now left.
    + rewrite Hext. intros a t Ha Ht. apply in_app_or in Ha.
      destruct Ha as [Ha|[Ha|[]]].
      * apply (Hle a t Ha). now right.
      * subst a. rewrite Hts.
        exact (proj1 (Forall_forall _ _) Hhead t Ht).
Qed.

(** X20: as long as the clock does not go backwards from one request
    to the next, the log is in chronological order: the timestamps of the
    stored atoms never decrease along the log. *)
Theorem log_is_chronological id evs :
  StronglySorted Z.le (clockOf evs) ->
  StronglySorted Z.le (map atom_timestamp (storedAtoms (run evs (freshWorld id)))).
Proof.
  intros Hc. apply run_chronological; [exact Hc|constructor|intros a t []].
Qed.

Lemma log_is_chronological_witness :
  StronglySorted Z.le
    (map atom_timestamp
       (storedAtoms
          (run [Fetch (calm (str "u1") 10)
                      (appendRequest (JString (str "a")) JUndefined);
                Fetch (calm (str "u2") 20)
                      (appendRequest (JString (str "b")) JUndefined)]
               (freshWorld [])))).
Proof.
  apply log_is_chronological.
  vm_compute. repeat constructor; discriminate.
Defined.
